(** * The chat page of Schuldenbot: static/js/script.js

    A shallow embedding of the page script and the properties of its
    message exchange.  The script is one [DOMContentLoaded] listener that
    keeps three pieces of state (the children of the [.messages]
    container, the value of the input field and the closure variable
    [conversationId]) and registers three event listeners.  JavaScript runs
    every listener to completion, and [sendMessage] is suspended at its
    [await]s, so the page is modelled as a state machine whose steps are
    the listeners and the resumption of a suspended [sendMessage]. *)

From Stdlib Require Import NArith String Ascii.
From stdpp Require Import base decidable option numbers list.

Local Open Scope N_scope.
Set Warnings "-register-all".

(** ** Strings

    A JavaScript string is a sequence of UTF-16 code units. *)

Abbreviation DOMString := (list N).

(** A literal of the script whose characters are all below U+0100. *)
Definition lit (s : string) : DOMString :=
  map N_of_ascii (list_ascii_of_string s).

(** [String.prototype.trim] removes WhiteSpace and LineTerminator code
    points from both ends: TAB, VT, FF, SP, NBSP, ZWNBSP, the category Zs,
    and LF, CR, LS, PS. *)
Definition is_white_space (c : N) : bool :=
  (c =? 9) || (c =? 10) || (c =? 11) || (c =? 12) || (c =? 13) ||
  (c =? 32) || (c =? 160) || (c =? 5760) ||
  ((8192 <=? c) && (c <=? 8202)) ||
  (c =? 8232) || (c =? 8233) || (c =? 8239) || (c =? 8287) ||
  (c =? 12288) || (c =? 65279).

Fixpoint trimStart (s : DOMString) : DOMString :=
  match s with
  | [] => []
  | c :: s' => if is_white_space c then trimStart s' else s
  end.

Definition trimEnd (s : DOMString) : DOMString :=
  reverse (trimStart (reverse s)).

Definition trim (s : DOMString) : DOMString := trimEnd (trimStart s).

(** ** Values

    What [response.json()] resolves to.  A number is kept by its canonical
    rendering (Number::toString); the script does no arithmetic.  A
    literal too large for a double parses to an infinity.  An object is the
    list of its own properties in property order, keys distinct. *)

Inductive number :=
  | Finite (digits : DOMString)
  | Infinity (negative : bool).

Inductive json :=
  | JNull
  | JBool (b : bool)
  | JNumber (n : number)
  | JString (s : DOMString)
  | JArray (items : list json)
  | JObject (props : list (DOMString * json)).

(** A JavaScript value of the script: [None] is [undefined]. *)
Abbreviation value := (option json).
Abbreviation undefined := (@None json).

Fixpoint own_property (key : DOMString) (props : list (DOMString * json)) : value :=
  match props with
  | [] => undefined
  | (k, v) :: rest => if bool_decide (k = key) then Some v else own_property key rest
  end.

(** Errors the script can see: the TypeError, SyntaxError and DOMException
    of the engine and of the network stack (their messages are
    implementation defined) and [new Error(message)]. *)
Inductive js_error :=
  | TypeError
  | SyntaxError
  | DOMException (name : DOMString)
  | Error (message : DOMString).

(** [data.key] for the four keys the script reads ([status],
    [conversation_id], [response], [error]): reading a property of [null]
    throws; an object yields its own property or [undefined]; the
    prototypes of the other values define none of these keys. *)
Definition Get (data : json) (key : DOMString) : js_error + value :=
  match data with
  | JNull => inl TypeError
  | JObject props => inr (own_property key props)
  | _ => inr undefined
  end.

(** [x === 'literal'] *)
Definition strict_equals (x : value) (s : DOMString) : bool :=
  match x with
  | Some (JString t) => bool_decide (t = s)
  | _ => false
  end.

(** ToBoolean, as used by [||]. *)
Definition truthy (x : value) : bool :=
  match x with
  | None | Some JNull => false
  | Some (JBool b) => b
  | Some (JNumber (Finite d)) => negb (bool_decide (d = lit "0"))
  | Some (JNumber (Infinity _)) => true
  | Some (JString s) => negb (bool_decide (s = []))
  | Some (JArray _) | Some (JObject _) => true
  end.

(** ToString.  [None] is a TypeError: an object parsed from JSON with an
    own [toString] property has no callable conversion method left
    ([Object.prototype.valueOf] returns the object itself).  An array is
    joined with commas, [null] elements giving the empty string. *)
Fixpoint ToString (j : json) : option DOMString :=
  match j with
  | JNull => Some (lit "null")
  | JBool b => Some (if b then lit "true" else lit "false")
  | JNumber (Finite d) => Some d
  | JNumber (Infinity neg) => Some (if neg then lit "-Infinity" else lit "Infinity")
  | JString s => Some s
  | JArray items =>
      (fix join (l : list json) : option DOMString :=
         match l with
         | [] => Some []
         | x :: rest =>
             match (match x with JNull => Some [] | _ => ToString x end) with
             | None => None
             | Some a =>
                 match rest with
                 | [] => Some a
                 | _ :: _ =>
                     match join rest with
                     | None => None
                     | Some b => Some (a ++ lit "," ++ b)
                     end
                 end
             end
         end) items
  | JObject props =>
      match own_property (lit "toString") props with
      | Some _ => None
      | None => Some (lit "[object Object]")
      end
  end.

(** The document [JSON.stringify] writes for a value, as the tree it
    denotes: a number that is not finite is written [null]. *)
Fixpoint JSON_stringify (j : json) : json :=
  match j with
  | JNumber (Infinity _) => JNull
  | JArray items => JArray (map JSON_stringify items)
  | JObject props => JObject (map (λ kv, (kv.1, JSON_stringify kv.2)) props)
  | _ => j
  end.

(** [JSON.stringify] of an object literal: a property whose value is
    [undefined] is left out. *)
Definition JSON_stringify_object (props : list (DOMString * value)) : json :=
  JObject (omap (λ kv, match kv.2 with
                       | Some j => Some (kv.1, JSON_stringify j)
                       | None => None
                       end) props).

(** ** The page *)

Inductive author := user | bot.

(** The children of the [.messages] container: a [div] made by
    [addMessage], or the [div] made by [showTypingIndicator] (its content
    is the three dots). *)
Inductive node :=
  | message (who : author) (textContent : DOMString)
  | typing_indicator.

Definition className (n : node) : DOMString :=
  match n with
  | message user _ => lit "message user"
  | message bot _ => lit "message bot"
  | typing_indicator => lit "typing-indicator"
  end.

Definition node_id (n : node) : option DOMString :=
  match n with
  | message _ _ => None
  | typing_indicator => Some (lit "typing-indicator")
  end.

Record request := Request {
  url : DOMString;
  method : DOMString;
  headers : list (DOMString * DOMString);
  body : json                   (* the JSON document sent, as a tree *)
}.

(** What a run of the script does to the outside, in program order. *)
Inductive effect :=
  | appendChild (n : node)              (* messagesContainer.appendChild *)
  | remove (n : node)                   (* typingIndicator.remove() *)
  | scrollToBottom_                     (* scrollTop = scrollHeight *)
  | set_value (v : DOMString)           (* messageInput.value = v *)
  | set_conversationId (v : value)      (* conversationId = v *)
  | fetch (r : request)
  | console_error (e : js_error).

(** The markup is taken to hold no element with id [typing-indicator] of
    its own, so the elements [getElementById] can find are children of the
    message list. *)
Record page := Page {
  messages : list node;         (* children of .messages, document order *)
  input_value : DOMString;      (* messageInput.value *)
  conversationId : value;       (* let conversationId *)
  in_flight : list DOMString;   (* suspended sendMessage calls, oldest first *)
  log : list effect             (* oldest first *)
}.

(** ** Statements: state passing with exceptions *)

Inductive completion (A : Type) :=
  | normal (a : A)
  | abrupt (e : js_error).
Arguments normal {A} a.
Arguments abrupt {A} e.

Definition js (A : Type) : Type := page → completion A * page.

#[global] Instance js_ret : MRet js := λ A a s, (normal a, s).
#[global] Instance js_bind : MBind js := λ A B k m s,
  match m s with
  | (normal a, s') => k a s'
  | (abrupt e, s') => (abrupt e, s')
  end.
Definition throw {A} (e : js_error) : js A := λ s, (abrupt e, s).
Definition try_catch {A} (m : js A) (handler : js_error → js A) : js A :=
  λ s, match m s with
       | (normal a, s') => (normal a, s')
       | (abrupt e, s') => handler e s'
       end.
Definition exec {A} (m : js A) (s : page) : page := (m s).2.

Definition emit (e : effect) : js unit :=
  λ s, (normal (), Page (messages s) (input_value s) (conversationId s)
                        (in_flight s) (log s ++ [e])).

Definition lift {A} (r : js_error + A) : js A :=
  match r with inl e => throw e | inr a => mret a end.

(** ** The functions of the script *)

Definition scrollToBottom : js unit := emit scrollToBottom_.

(** The [textContent] setter takes a nullable DOMString: [null] and
    [undefined] give the empty string, anything else goes through
    ToString, which can throw. *)
Definition to_textContent (content : value) : js_error + DOMString :=
  match content with
  | None | Some JNull => inr []
  | Some j => match ToString j with Some t => inr t | None => inl TypeError end
  end.

Definition append (n : node) : js unit :=
  λ s, (normal (), Page (messages s ++ [n]) (input_value s) (conversationId s)
                        (in_flight s) (log s ++ [appendChild n])).

Definition addMessage (content : value) (isUser : bool) : js unit :=
  text ← lift (to_textContent content);
  append (message (if isUser then user else bot) text);;
  scrollToBottom.

Definition addBotMessage (content : value) : js unit :=
  addMessage content false.

Definition initChat (GREETING : DOMString) : js unit :=
  addBotMessage (Some (JString GREETING));;
  scrollToBottom.

Definition showTypingIndicator : js unit :=
  append typing_indicator;;
  scrollToBottom.

(** The first element in document order with the given id, and its
    position. *)
Definition getElementById (i : DOMString) (doc : list node) : option (nat * node) :=
  list_find (λ n, node_id n = Some i) doc.

Definition hideTypingIndicator : js unit :=
  λ s, match getElementById (lit "typing-indicator") (messages s) with
       | Some (i, n) =>
           (normal (), Page (delete i (messages s)) (input_value s)
                            (conversationId s) (in_flight s) (log s ++ [remove n]))
       | None => (normal (), s)
       end.

Definition read {A} (field : page → A) : js A := λ s, (normal (field s), s).

Definition assign_conversationId (v : value) : js unit :=
  λ s, (normal (), Page (messages s) (input_value s) v (in_flight s)
                        (log s ++ [set_conversationId v])).

Definition assign_value (v : DOMString) : js unit :=
  λ s, (normal (), Page (messages s) v (conversationId s) (in_flight s)
                        (log s ++ [set_value v])).

(** [await]: the call is suspended until the network settles. *)
Definition await (message : DOMString) : js unit :=
  λ s, (normal (), Page (messages s) (input_value s) (conversationId s)
                        (in_flight s ++ [message]) (log s)).

(** How the two awaited promises of one call settle: [fetch] rejects, or
    it resolves to a response with some HTTP status whose [json()] rejects
    or resolves to the parsed body.  The script touches no state between
    the two [await]s, so they are one step. *)
Inductive outcome :=
  | fetch_rejected (reason : js_error)
  | json_rejected (status : N) (reason : js_error)
  | json_resolved (status : N) (data : json).

Definition awaited (o : outcome) : js json :=
  match o with
  | fetch_rejected reason => throw reason
  | json_rejected _ reason => throw reason
  | json_resolved _ data => mret data
  end.

Definition chat_request (message : DOMString) (cid : value) : request :=
  {| url := lit "/api/chat";
     method := lit "POST";
     headers := [(lit "Content-Type", lit "application/json")];
     body := JSON_stringify_object
               [(lit "message", Some (JString message));
                (lit "conversation_id", cid)] |}.

(** 'Es ist ein Fehler aufgetreten. Bitte versuche es später noch einmal.' *)
Definition error_text : DOMString :=
  lit "Es ist ein Fehler aufgetreten. Bitte versuche es sp" ++ [228] ++
  lit "ter noch einmal.".

(** [new Error(x)] for an [x] that is not [undefined]: the message is
    ToString of [x]. *)
Definition new_Error (x : json) : js_error + js_error :=
  match ToString x with
  | Some m => inr (Error m)
  | None => inl TypeError
  end.

(** [sendMessage] up to its first [await]. *)
Definition sendMessage (message : DOMString) : js unit :=
  showTypingIndicator;;
  cid ← read conversationId;
  emit (fetch (chat_request message cid));;
  await message.

(** [sendMessage] from its first [await] on. *)
Definition sendMessage_resumed (o : outcome) : js unit :=
  try_catch
    (data ← awaited o;
     status ← lift (Get data (lit "status"));
     if strict_equals status (lit "success") then
       cid ← lift (Get data (lit "conversation_id"));
       assign_conversationId cid;;
       hideTypingIndicator;;
       response ← lift (Get data (lit "response"));
       addBotMessage response
     else
       error ← lift (Get data (lit "error"));
       (* data.error || 'Unknown error occurred'; a truthy value is not undefined *)
       e ← lift (new_Error (if truthy error then default JNull error
                            else JString (lit "Unknown error occurred")));
       throw e)
    (λ error,
       emit (console_error error);;
       hideTypingIndicator;;
       addBotMessage (Some (JString error_text))).

(** The [submit] listener of the form.  ([e.preventDefault()] keeps the
    browser from navigating; it changes nothing on the page.) *)
Definition on_submit : js unit :=
  value ← read input_value;
  let message := trim value in
  if bool_decide (message ≠ []) then
    addMessage (Some (JString message)) true;;
    assign_value [];;
    sendMessage message
  else mret ().

(** [form.dispatchEvent(new Event('submit'))] runs the listener before it
    returns. *)
Definition dispatch_submit : js unit := on_submit.

Definition on_click : js unit := dispatch_submit.

Definition on_keypress (key : DOMString) (shiftKey : bool) : js unit :=
  if bool_decide (key = lit "Enter") && negb shiftKey
  then dispatch_submit
  else mret ().

(** ** The page as a state machine *)

Inductive event :=
  | input (text : DOMString)                  (* the user edits the field *)
  | submit                                    (* submit event on the form *)
  | click                                     (* click on the send button *)
  | keypress (key : DOMString) (shiftKey : bool)
  | settle (i : nat) (o : outcome).           (* the i-th suspended call resumes *)

Definition step (e : event) (s : page) : option page :=
  match e with
  | input text =>
      Some (Page (messages s) text (conversationId s) (in_flight s) (log s))
  | submit => Some (exec on_submit s)
  | click => Some (exec on_click s)
  | keypress key shiftKey => Some (exec (on_keypress key shiftKey) s)
  | settle i o =>
      match in_flight s !! i with
      | Some _ =>
          Some (exec (sendMessage_resumed o)
                  (Page (messages s) (input_value s) (conversationId s)
                        (delete i (in_flight s)) (log s)))
      | None => None
      end
  end.

Fixpoint run (es : list event) (s : page) : option page :=
  match es with
  | [] => Some s
  | e :: es' => match step e s with Some s' => run es' s' | None => None end
  end.

(** The page when the listener of [DOMContentLoaded] returns.  The markup
    is taken to give an empty message list and an empty field. *)
Definition blank : page := Page [] [] (Some JNull) [] [].

Definition loaded (GREETING : DOMString) : page := exec (initChat GREETING) blank.

(** ** Vocabulary of the properties *)

(** [data.key], [undefined] where the read throws. *)
Definition field (data : json) (key : DOMString) : value :=
  match Get data key with inr v => v | inl _ => undefined end.

(** The parsed body has a status field equal to the success marker. *)
Definition is_success (data : json) : bool :=
  strict_equals (field data (lit "status")) (lit "success").

(** The three ways an exchange fails: the request fails, the body does not
    parse, or the parsed status is not the success marker. *)
Definition is_failure (o : outcome) : bool :=
  match o with
  | fetch_rejected _ | json_rejected _ _ => true
  | json_resolved _ data => negb (is_success data)
  end.

Definition is_indicator (n : node) : bool :=
  bool_decide (node_id n = Some (lit "typing-indicator")).

Definition indicators (doc : list node) : nat :=
  length (filter (λ n, is_indicator n = true) doc).

Definition is_user_message (n : node) : bool :=
  match n with message user _ => true | _ => false end.

Definition user_messages (doc : list node) : list node :=
  filter (λ n, is_user_message n = true) doc.

(** The requests sent so far. *)
Definition requests (l : list effect) : list request :=
  omap (λ e, match e with fetch r => Some r | _ => None end) l.

(** The message list once [hideTypingIndicator] has run, and what it
    logs. *)
Definition hidden (doc : list node) : list node :=
  match getElementById (lit "typing-indicator") doc with
  | Some (i, _) => delete i doc
  | None => doc
  end.

Definition removal (doc : list node) : list effect :=
  match getElementById (lit "typing-indicator") doc with
  | Some (_, n) => [remove n]
  | None => []
  end.

(** The page after the [catch] block of [sendMessage] has run on [s]. *)
Definition caught (error : js_error) (s : page) : page :=
  Page (hidden (messages s) ++ [message bot error_text]) (input_value s)
       (conversationId s) (in_flight s)
       (log s ++ [console_error error] ++ removal (messages s) ++
        [appendChild (message bot error_text); scrollToBottom_]).

(** The effects of a successful exchange, in their order: the stored
    identifier is updated, the indicator removed, [text] appended as a bot
    message. *)
Definition success_effects (s : page) (data : json) (text : DOMString) (s' : page) : Prop :=
  conversationId s' = field data (lit "conversation_id") ∧
  messages s' = hidden (messages s) ++ [message bot text] ∧
  log s' = log s ++ [set_conversationId (field data (lit "conversation_id"))] ++
           removal (messages s) ++
           [appendChild (message bot text); scrollToBottom_].

(** The three ways to submit: the form's submit event, a click on the send
    button, Enter without shift in the input field. *)
Definition triggers : list event :=
  [submit; click; keypress (lit "Enter") false].

(** Bodies used as examples. *)
Definition success_body : json :=
  JObject [(lit "status", JString (lit "success"));
           (lit "conversation_id", JString (lit "abc123"));
           (lit "response", JString (lit "Hallo!"))].

Definition error_body : json :=
  JObject [(lit "status", JString (lit "error"));
           (lit "error", JString (lit "boom"))].

(** A success whose response is an object with a property [toString]. *)
Definition odd_body : json :=
  JObject [(lit "status", JString (lit "success"));
           (lit "conversation_id", JString (lit "abc123"));
           (lit "response", JObject [(lit "toString", JString (lit "Hallo!"))])].

(** A success that clears the identifier, one that has none. *)
Definition null_id_body : json :=
  JObject [(lit "status", JString (lit "success"));
           (lit "conversation_id", JNull);
           (lit "response", JString (lit "Hallo!"))].

Definition no_id_body : json :=
  JObject [(lit "status", JString (lit "success"));
           (lit "response", JString (lit "Hallo!"))].

(** The page after the greeting "Hallo" and one submission of "Hi". *)
Definition asked : page :=
  Page [message bot (lit "Hallo"); message user (lit "Hi"); typing_indicator]
       [] (Some JNull) [lit "Hi"]
       [appendChild (message bot (lit "Hallo")); scrollToBottom_; scrollToBottom_;
        appendChild (message user (lit "Hi")); scrollToBottom_; set_value [];
        appendChild typing_indicator; scrollToBottom_;
        fetch (chat_request (lit "Hi") (Some JNull))].

(** A response is regular unless it is a success whose response value the
    setter of [textContent] cannot convert. *)
Definition is_regular (o : outcome) : bool :=
  match o with
  | json_resolved _ data =>
      if is_success data
      then match to_textContent (field data (lit "response")) with
           | inr _ => true
           | inl _ => false
           end
      else true
  | _ => true
  end.

Definition regular (e : event) : bool :=
  match e with settle _ o => is_regular o | _ => true end.

(** A value that is an identifier: neither [null] nor [undefined]. *)
Definition is_set (v : value) : bool :=
  match v with None | Some JNull => false | Some _ => true end.

(** The event is not a success that stores [null] or [undefined]. *)
Definition keeps_identifier (e : event) : bool :=
  match e with
  | settle _ (json_resolved _ data) =>
      if is_success data then is_set (field data (lit "conversation_id")) else true
  | _ => true
  end.

(** The event is not a successful response. *)
Definition no_success (e : event) : bool :=
  match e with
  | settle _ (json_resolved _ data) => negb (is_success data)
  | _ => true
  end.

(** The message nodes of the list, without the typing indicators. *)
Definition chat (doc : list node) : list node :=
  filter (λ n, is_indicator n = false) doc.

Definition is_bot_message (n : node) : bool :=
  match n with message bot _ => true | _ => false end.

Definition bot_messages (doc : list node) : list node :=
  filter (λ n, is_bot_message n = true) doc.

Definition node_text (n : node) : DOMString :=
  match n with message _ text => text | typing_indicator => [] end.

(** A value the setter of [textContent] cannot convert: an object with a
    property [toString], or an array with such an element. *)
Inductive unconvertible : json → Prop :=
  | unconvertible_object props v :
      own_property (lit "toString") props = Some v →
      unconvertible (JObject props)
  | unconvertible_array items x :
      x ∈ items → unconvertible x → unconvertible (JArray items).

(** Every [appendChild] in the log is followed at once by a scroll to the
    bottom. *)
Fixpoint scrolled (l : list effect) : bool :=
  match l with
  | [] => true
  | appendChild _ :: l' =>
      match l' with
      | scrollToBottom_ :: l'' => scrolled l''
      | _ => false
      end
  | _ :: l' => scrolled l'
  end.

(** An effect that neither appends a node nor sends a request. *)
Definition is_quiet (e : effect) : bool :=
  match e with appendChild _ | fetch _ => false | _ => true end.

Definition is_settle (e : event) : bool :=
  match e with settle _ _ => true | _ => false end.

(** The text of a node has no white space at either end and is not
    empty. *)
Definition is_trimmed (t : DOMString) : Prop :=
  (∃ c, head t = Some c ∧ is_white_space c = false) ∧
  (∃ c, last t = Some c ∧ is_white_space c = false).

(** Induction on a value and, for an array, on every element. *)
Section json_induction.
Variable P : json → Prop.
Hypothesis Hnull : P JNull.
Hypothesis Hbool : ∀ b, P (JBool b).
Hypothesis Hnumber : ∀ n, P (JNumber n).
Hypothesis Hstring : ∀ s, P (JString s).
Hypothesis Harray : ∀ items, Forall P items → P (JArray items).
Hypothesis Hobject : ∀ props, P (JObject props).

Fixpoint json_induction (j : json) : P j :=
  match j with
  | JNull => Hnull
  | JBool b => Hbool b
  | JNumber n => Hnumber n
  | JString s => Hstring s
  | JArray items =>
      Harray items
        ((fix all (l : list json) : Forall P l :=
            match l with
            | [] => @List.Forall_nil json P
            | x :: l' => @List.Forall_cons json P x l' (json_induction x) (all l')
            end) items)
  | JObject props => Hobject props
  end.
End json_induction.

(** The identifier a list of events leaves stored: that of the success
    that arrives last, or the one stored before. *)
Definition identifier_after (es : list event) (id : value) : value :=
  foldl (λ id e,
           match e with
           | settle _ (json_resolved _ data) =>
               if is_success data then field data (lit "conversation_id") else id
           | _ => id
           end) id es.

(** * Properties *)

(** ** Strings *)

Lemma trimStart_white (s : DOMString) :
  trimStart s = [] ↔ Forall (λ c, is_white_space c = true) s.
Proof.
  induction s as [|c s IH]; simpl.
  - split; auto.
  - destruct (is_white_space c) eqn:Hc.
    + rewrite IH. split; [intros; by constructor | by inversion 1].
    + split; [done | inversion 1; congruence].
Qed.

Lemma trimStart_nonwhite (s : DOMString) :
  trimStart s ≠ [] → ∃ c s', trimStart s = c :: s' ∧ is_white_space c = false.
Proof.
  induction s as [|c s IH]; simpl; [done|].
  destruct (is_white_space c) eqn:Hc; eauto.
Qed.

Lemma trim_white (s : DOMString) :
  trim s = [] ↔ Forall (λ c, is_white_space c = true) s.
Proof.
  unfold trim, trimEnd. split.
  - intros H. apply trimStart_white.
    destruct (trimStart s) as [|c t] eqn:Hs; [done|].
    assert (Hr : trimStart (reverse (c :: t)) = []).
    { apply (f_equal reverse) in H. by rewrite reverse_involutive in H. }
    apply trimStart_white, Forall_reverse in Hr.
    rewrite reverse_involutive in Hr.
    destruct (trimStart_nonwhite s) as (c' & t' & Heq & Hc'); [by rewrite Hs|].
    rewrite Hs in Heq. inversion Heq; subst. inversion Hr; congruence.
  - intros H. apply trimStart_white in H. by rewrite H.
Qed.

(** ** The typing indicator in the message list *)

Lemma hidden_indicator (doc : list node) :
  hidden (typing_indicator :: doc) = doc.
Proof. reflexivity. Qed.

Lemma hidden_message who text (doc : list node) :
  hidden (message who text :: doc) = message who text :: hidden doc.
Proof.
  unfold hidden, getElementById. simpl.
  destruct (list_find _ doc) as [[i n]|]; reflexivity.
Qed.

Lemma removal_indicator (doc : list node) :
  removal (typing_indicator :: doc) = [remove typing_indicator].
Proof. reflexivity. Qed.

Lemma removal_message who text (doc : list node) :
  removal (message who text :: doc) = removal doc.
Proof.
  unfold removal, getElementById. simpl.
  destruct (list_find _ doc) as [[i n]|]; reflexivity.
Qed.

Lemma indicators_cons n (doc : list node) :
  indicators (n :: doc) = ((if is_indicator n then 1 else 0) + indicators doc)%nat.
Proof.
  unfold indicators. rewrite filter_cons.
  destruct (is_indicator n); case_decide; simpl; congruence.
Qed.

Lemma indicators_app (doc doc' : list node) :
  indicators (doc ++ doc') = (indicators doc + indicators doc')%nat.
Proof. unfold indicators. by rewrite list.filter_app, length_app. Qed.

Lemma indicators_message who text : indicators [message who text] = 0%nat.
Proof. reflexivity. Qed.

Lemma indicators_hidden (doc : list node) :
  indicators (hidden doc) = pred (indicators doc).
Proof.
  induction doc as [|[who text|] doc IH].
  - reflexivity.
  - rewrite hidden_message, !indicators_cons. simpl. exact IH.
  - rewrite hidden_indicator, indicators_cons. reflexivity.
Qed.

Lemma hidden_none (doc : list node) :
  indicators doc = 0%nat → hidden doc = doc ∧ removal doc = [].
Proof.
  induction doc as [|[who text|] doc IH]; intros H.
  - done.
  - rewrite indicators_cons in H. simpl in H.
    rewrite hidden_message, removal_message. destruct (IH H) as [-> ->]. done.
  - rewrite indicators_cons in H. discriminate.
Qed.

Lemma removal_some (doc : list node) :
  indicators doc ≠ 0%nat → removal doc = [remove typing_indicator].
Proof.
  induction doc as [|[who text|] doc IH]; intros H.
  - done.
  - rewrite indicators_cons in H. rewrite removal_message. by apply IH.
  - apply removal_indicator.
Qed.

Lemma indicators_elem (doc : list node) :
  indicators doc ≠ 0%nat ↔ typing_indicator ∈ doc.
Proof.
  induction doc as [|[who text|] doc IH]; rewrite ?indicators_cons; simpl.
  - split; [done | by intros ?%elem_of_nil].
  - rewrite IH. split; [by constructor | by inversion 1].
  - split; [intros; by constructor | done].
Qed.

(** ** What each function of the script does to the page *)

(** Unfold every statement of a straight-line function at once. *)
Ltac js_unfold :=
  cbv beta iota zeta delta
    [mbind js_bind mret js_ret throw try_catch lift read emit append
     scrollToBottom assign_conversationId assign_value await];
  simpl.

(** Run the first statement of a sequence. *)
Ltac js_step := unfold mbind at 1, js_bind at 1.

Lemma exec_hideTypingIndicator (s : page) :
  hideTypingIndicator s =
    (normal (), Page (hidden (messages s)) (input_value s) (conversationId s)
                     (in_flight s) (log s ++ removal (messages s))).
Proof.
  unfold hideTypingIndicator, hidden, removal.
  destruct (getElementById _ _) as [[i n]|]; [done|].
  rewrite app_nil_r. by destruct s.
Qed.

Lemma exec_addMessage_text (text : DOMString) (isUser : bool) (s : page) :
  addMessage (Some (JString text)) isUser s =
    (normal (), Page (messages s ++ [message (if isUser then user else bot) text])
                     (input_value s) (conversationId s) (in_flight s)
                     (log s ++ [appendChild (message (if isUser then user else bot) text);
                                scrollToBottom_])).
Proof.
  unfold addMessage. js_unfold. by rewrite <- app_assoc.
Qed.

Lemma exec_sendMessage (message : DOMString) (s : page) :
  sendMessage message s =
    (normal (), Page (messages s ++ [typing_indicator]) (input_value s)
                     (conversationId s) (in_flight s ++ [message])
                     (log s ++ [appendChild typing_indicator; scrollToBottom_;
                                fetch (chat_request message (conversationId s))])).
Proof.
  unfold sendMessage, showTypingIndicator. js_unfold. by rewrite <- !app_assoc.
Qed.

Lemma exec_on_submit (s : page) :
  on_submit s =
    (normal (),
     if bool_decide (trim (input_value s) ≠ []) then
       Page (messages s ++ [message user (trim (input_value s)); typing_indicator])
            [] (conversationId s) (in_flight s ++ [trim (input_value s)])
            (log s ++ [appendChild (message user (trim (input_value s)));
                       scrollToBottom_; set_value [];
                       appendChild typing_indicator; scrollToBottom_;
                       fetch (chat_request (trim (input_value s)) (conversationId s))])
     else s).
Proof.
  unfold on_submit. js_step; unfold read.
  case_bool_decide; [|done].
  js_step. rewrite exec_addMessage_text.
  js_step; unfold assign_value.
  rewrite exec_sendMessage. simpl. by rewrite <- !app_assoc.
Qed.

Lemma exec_addMessage (content : value) (isUser : bool) (s : page) :
  addMessage content isUser s =
    match to_textContent content with
    | inr text =>
        (normal (), Page (messages s ++ [message (if isUser then user else bot) text])
                         (input_value s) (conversationId s) (in_flight s)
                         (log s ++ [appendChild (message (if isUser then user else bot) text);
                                    scrollToBottom_]))
    | inl e => (abrupt e, s)
    end.
Proof.
  unfold addMessage. destruct (to_textContent content) as [e|text]; js_unfold.
  - done.
  - by rewrite <- app_assoc.
Qed.

Lemma is_success_object (data : json) :
  is_success data = true →
  ∃ props, data = JObject props ∧
           own_property (lit "status") props = Some (JString (lit "success")).
Proof.
  unfold is_success, field, strict_equals.
  destruct data as [| | | | |props]; try done.
  simpl. destruct (own_property _ props) as [[| | |t| |]|] eqn:Hst; try done.
  intros Ht%bool_decide_eq_true. subst t. eauto.
Qed.

Lemma exec_catch (error : js_error) (s : page) :
  (emit (console_error error);; hideTypingIndicator;;
   addBotMessage (Some (JString error_text))) s = (normal (), caught error s).
Proof.
  js_step; unfold emit.
  js_step. rewrite exec_hideTypingIndicator.
  unfold addBotMessage. rewrite exec_addMessage_text. simpl.
  unfold caught. by rewrite <- !app_assoc.
Qed.

(** An exchange that fails ends in the [catch] block with the page as it
    was when the call resumed. *)
Lemma resumed_failure (o : outcome) (s : page) :
  is_failure o = true →
  ∃ error, sendMessage_resumed o s = (normal (), caught error s).
Proof.
  intros Hf. unfold sendMessage_resumed, try_catch.
  destruct o as [reason|st reason|st data].
  - exists reason. js_step. simpl. apply exec_catch.
  - exists reason. js_step. simpl. apply exec_catch.
  - simpl in Hf. apply negb_true_iff in Hf.
    js_step. simpl. unfold mret, js_ret.
    js_step.
    unfold is_success, field in Hf.
    destruct (Get data (lit "status")) as [e|status] eqn:Hst.
    + exists e. simpl. apply exec_catch.
    + simpl. unfold mret, js_ret. rewrite Hf.
      js_step.
      destruct (Get data (lit "error")) as [e|err] eqn:Herr.
      * exists e. simpl. apply exec_catch.
      * simpl. unfold mret, js_ret. js_step.
        destruct (new_Error _) as [e|e]; exists e; simpl; apply exec_catch.
Qed.

(** A success whose response value the DOM converts to [text]. *)
Lemma resumed_success (st : N) (data : json) (text : DOMString) (s : page) :
  is_success data = true →
  to_textContent (field data (lit "response")) = inr text →
  sendMessage_resumed (json_resolved st data) s =
    (normal (),
     Page (hidden (messages s) ++ [message bot text]) (input_value s)
          (field data (lit "conversation_id")) (in_flight s)
          (log s ++ [set_conversationId (field data (lit "conversation_id"))] ++
           removal (messages s) ++
           [appendChild (message bot text); scrollToBottom_])).
Proof.
  intros (props & -> & Hst)%is_success_object Htext.
  unfold sendMessage_resumed, try_catch.
  js_step. simpl. unfold mret, js_ret.
  js_step. simpl. unfold mret, js_ret.
  rewrite Hst. simpl.
  js_step; unfold mret, js_ret.
  js_step; unfold assign_conversationId.
  js_step. rewrite exec_hideTypingIndicator.
  js_step; unfold mret, js_ret. simpl.
  unfold addBotMessage. rewrite exec_addMessage.
  unfold field in Htext. simpl in Htext. rewrite Htext. simpl.
  unfold field. simpl. by rewrite <- !app_assoc.
Qed.

(** A success whose response value cannot be converted: the setter of
    [textContent] throws after the indicator is gone, and the [catch]
    block runs on top. *)
Lemma resumed_success_throw (st : N) (data : json) (e : js_error) (s : page) :
  is_success data = true →
  to_textContent (field data (lit "response")) = inl e →
  sendMessage_resumed (json_resolved st data) s =
    (normal (),
     caught e
       (Page (hidden (messages s)) (input_value s)
             (field data (lit "conversation_id")) (in_flight s)
             (log s ++ [set_conversationId (field data (lit "conversation_id"))] ++
              removal (messages s)))).
Proof.
  intros (props & -> & Hst)%is_success_object Htext.
  unfold sendMessage_resumed, try_catch.
  js_step. simpl. unfold mret, js_ret.
  js_step. simpl. unfold mret, js_ret.
  rewrite Hst. simpl.
  js_step; unfold mret, js_ret.
  js_step; unfold assign_conversationId.
  js_step. rewrite exec_hideTypingIndicator.
  js_step; unfold mret, js_ret. simpl.
  unfold addBotMessage. rewrite exec_addMessage.
  unfold field in Htext. simpl in Htext. rewrite Htext. simpl.
  rewrite exec_catch. unfold field. simpl. by rewrite <- !app_assoc.
Qed.

(** ** The exchange *)

Lemma chat_request_conversation_id (message : DOMString) (cid : value) :
  field (body (chat_request message cid)) (lit "conversation_id") =
    JSON_stringify <$> cid.
Proof. destruct cid; reflexivity. Qed.

Lemma chat_request_message (message : DOMString) (cid : value) :
  field (body (chat_request message cid)) (lit "message") = Some (JString message).
Proof. destruct cid; reflexivity. Qed.

Lemma requests_app (l l' : list effect) :
  requests (l ++ l') = requests l ++ requests l'.
Proof. apply omap_app. Qed.

Lemma requests_removal (doc : list node) : requests (removal doc) = [].
Proof. unfold removal. by destruct (getElementById _ doc) as [[i n]|]. Qed.

Lemma requests_caught (error : js_error) (s : page) :
  requests (log (caught error s)) = requests (log s).
Proof.
  unfold caught. cbn [log]. rewrite !requests_app, requests_removal.
  simpl. by rewrite app_nil_r.
Qed.

(** C1, as the code has it.  When the parsed body has the status
    [success] and its response value is one the DOM converts to a text,
    the resumed call assigns the body's conversation_id to
    [conversationId], then removes the typing indicator (the first one in
    the list, if there is one), then appends the text as a bot message; and
    a submission made next sends a body whose conversation_id is the
    serialisation of the stored value (no such field when the body had
    none). *)
Theorem success_updates_then_renders
    (s : page) (st : N) (data : json) (text typed : DOMString) :
  is_success data = true →
  to_textContent (field data (lit "response")) = inr text →
  trim typed ≠ [] →
  let s' := exec (sendMessage_resumed (json_resolved st data)) s in
  success_effects s data text s' ∧
  (typing_indicator ∈ messages s →
   removal (messages s) = [remove typing_indicator] ∧
   S (indicators (messages s')) = indicators (messages s)) ∧
  ∃ s'', run [input typed; submit] s' = Some s'' ∧
         requests (log s'') =
           requests (log s') ++
           [chat_request (trim typed) (field data (lit "conversation_id"))] ∧
         field (body (chat_request (trim typed) (field data (lit "conversation_id"))))
               (lit "conversation_id") =
           JSON_stringify <$> field data (lit "conversation_id") ∧
         ∀ id, field data (lit "conversation_id") = Some (JString id) →
               field (body (chat_request (trim typed) (Some (JString id))))
                     (lit "conversation_id") = Some (JString id).
Proof.
  intros Hs Htext Htyped s'. subst s'. unfold exec.
  rewrite (resumed_success st data text s Hs Htext). simpl.
  split; [by repeat split|]. split.
  { intros Hin%indicators_elem. split; [by apply removal_some|].
    rewrite indicators_app, indicators_hidden, indicators_message. lia. }
  eexists. split; [reflexivity|]. unfold exec. rewrite exec_on_submit. simpl.
  rewrite bool_decide_true by done. simpl.
  split; [by rewrite requests_app|].
  split; [apply chat_request_conversation_id|done].
Qed.

Lemma asked_reached :
  run [input (lit " Hi "); submit] (loaded (lit "Hallo")) = Some asked.
Proof. reflexivity. Qed.

Lemma success_updates_then_renders_witness :
  is_success success_body = true ∧
  to_textContent (field success_body (lit "response")) = inr (lit "Hallo!") ∧
  trim (lit "Und nun?") ≠ [] ∧
  success_effects asked success_body (lit "Hallo!")
    (exec (sendMessage_resumed (json_resolved 200 success_body)) asked).
Proof.
  assert (Ht : trim (lit "Und nun?") ≠ []) by (vm_compute; discriminate).
  split; [reflexivity|]. split; [reflexivity|]. split; [exact Ht|].
  exact (proj1 (success_updates_then_renders asked 200 success_body (lit "Hallo!")
                  (lit "Und nun?") eq_refl eq_refl Ht)).
Defined.

(** C1 as stated fails: the status is [success], yet the setter of
    [textContent] throws on the response value, and what is appended is
    the error message, after an entry in the console. *)
Lemma success_not_rendered :
  is_success odd_body = true ∧
  messages (exec (sendMessage_resumed (json_resolved 200 odd_body)) asked) =
    [message bot (lit "Hallo"); message user (lit "Hi"); message bot error_text] ∧
  log (exec (sendMessage_resumed (json_resolved 200 odd_body)) asked) =
    log asked ++ [set_conversationId (Some (JString (lit "abc123")));
                  remove typing_indicator; console_error TypeError;
                  appendChild (message bot error_text); scrollToBottom_] ∧
  ¬ ∃ text, success_effects asked odd_body text
              (exec (sendMessage_resumed (json_resolved 200 odd_body)) asked).
Proof.
  split; [reflexivity|]. split; [reflexivity|]. split; [reflexivity|].
  intros (text & _ & _ & Hlog). vm_compute in Hlog. discriminate Hlog.
Qed.

(** C2.  Whatever makes an exchange fail (a status that is not [success],
    a rejected request, a body that does not parse), the resumed call
    removes the typing indicator and appends the one fixed error message as
    a bot message; the message list that results is the same for every
    cause, the stored identifier is untouched, and the cause goes to the
    console only: for a body with an error text it is that text. *)
Theorem failure_renders_fixed_message (s : page) (o : outcome) :
  is_failure o = true →
  let s' := exec (sendMessage_resumed o) s in
  messages s' = hidden (messages s) ++ [message bot error_text] ∧
  indicators (messages s') = pred (indicators (messages s)) ∧
  conversationId s' = conversationId s ∧
  (∃ error, log s' = log s ++ [console_error error] ++ removal (messages s) ++
                     [appendChild (message bot error_text); scrollToBottom_]) ∧
  (∀ o', is_failure o' = true →
         messages (exec (sendMessage_resumed o') s) = messages s') ∧
  (∀ st props text,
     o = json_resolved st (JObject props) →
     own_property (lit "error") props = Some (JString text) → text ≠ [] →
     requests (log s') = requests (log s) ∧
     log s' = log s ++ [console_error (Error text)] ++ removal (messages s) ++
              [appendChild (message bot error_text); scrollToBottom_]).
Proof.
  intros Hf s'. subst s'. unfold exec.
  destruct (resumed_failure o s Hf) as [error He]. rewrite He. simpl.
  split; [done|].
  split; [rewrite indicators_app, indicators_hidden, indicators_message; lia|].
  split; [done|]. split; [by exists error|]. split.
  - intros o' Hf'. destruct (resumed_failure o' s Hf') as [error' He'].
    by rewrite He'.
  - intros st props text -> Herr Htext.
    assert (error = Error text) as ->.
    { revert He. unfold sendMessage_resumed, try_catch.
      js_step. simpl. unfold mret, js_ret.
      js_step. simpl. unfold mret, js_ret.
      simpl in Hf. apply negb_true_iff in Hf. unfold is_success, field in Hf.
      simpl in Hf. rewrite Hf.
      js_step. simpl. unfold mret, js_ret.
      rewrite Herr. simpl. rewrite bool_decide_false by done. simpl.
      rewrite exec_catch. intros H.
      apply (f_equal (λ p, log p.2)) in H. simpl in H.
      apply app_inv_head in H. congruence. }
    split; [exact (requests_caught (Error text) s)|done].
Qed.

Lemma failure_renders_fixed_message_witness :
  is_failure (json_resolved 500 error_body) = true ∧
  messages (exec (sendMessage_resumed (json_resolved 500 error_body)) asked) =
    hidden (messages asked) ++ [message bot error_text].
Proof.
  split; [reflexivity|].
  exact (proj1 (failure_renders_fixed_message asked (json_resolved 500 error_body)
                  eq_refl)).
Defined.

(** C3.  When the text in the field is empty or all white space, each way
    of submitting it leaves the page as it was: no node is appended and no
    request is sent (the log does not grow). *)
Theorem blank_submission_is_noop (s : page) (rawText : DOMString) (trigger : event) :
  Forall (λ c, is_white_space c = true) rawText →
  trigger ∈ triggers →
  run [input rawText; trigger] s =
    Some (Page (messages s) rawText (conversationId s) (in_flight s) (log s)).
Proof.
  intros Hw%trim_white Ht. simpl.
  assert (step trigger (Page (messages s) rawText (conversationId s) (in_flight s) (log s))
          = Some (exec on_submit (Page (messages s) rawText (conversationId s)
                                       (in_flight s) (log s)))) as ->.
  { unfold triggers in Ht. rewrite !elem_of_cons in Ht.
    destruct Ht as [->| [->| [->|Ht]]]; try reflexivity.
    by apply elem_of_nil in Ht. }
  unfold exec. rewrite exec_on_submit. simpl. rewrite Hw.
  by case_bool_decide.
Qed.

Lemma blank_submission_is_noop_witness :
  Forall (λ c, is_white_space c = true) [32; 9; 10; 160] ∧
  submit ∈ triggers ∧
  run [input [32; 9; 10; 160]; submit] asked =
    Some (Page (messages asked) [32; 9; 10; 160] (conversationId asked)
               (in_flight asked) (log asked)).
Proof.
  assert (Hw : Forall (λ c, is_white_space c = true) [32; 9; 10; 160])
    by (repeat constructor).
  assert (Ht : submit ∈ triggers) by (unfold triggers; constructor).
  split; [exact Hw|]. split; [exact Ht|].
  exact (blank_submission_is_noop asked [32; 9; 10; 160] submit Hw Ht).
Defined.

(** ** Steps of the page *)

Lemma step_trigger (trigger : event) (s : page) :
  trigger ∈ triggers → step trigger s = Some (exec on_submit s).
Proof.
  unfold triggers. rewrite !elem_of_cons.
  intros [->| [->| [->|Ht]]]; try reflexivity.
  by apply elem_of_nil in Ht.
Qed.

(** A listener either runs [on_submit] or does nothing. *)
Lemma step_listener (e : event) (s s' : page) :
  step e s = Some s' →
  s' = exec on_submit s ∨
  s' = Page (messages s) (input_value s') (conversationId s) (in_flight s) (log s) ∨
  ∃ i o, e = settle i o ∧ is_Some (in_flight s !! i) ∧
         s' = exec (sendMessage_resumed o)
                (Page (messages s) (input_value s) (conversationId s)
                      (delete i (in_flight s)) (log s)).
Proof.
  destruct e as [text| | |key shiftKey|i o]; simpl.
  - intros [= <-]. right; left. reflexivity.
  - intros [= <-]. by left.
  - intros [= <-]. by left.
  - intros [= <-]. unfold on_keypress.
    destruct (bool_decide _ && negb shiftKey); [by left|].
    right; left. by destruct s.
  - destruct (in_flight s !! i) as [m|] eqn:Hi; [|done].
    intros [= <-]. right; right. exists i, o. eauto.
Qed.

(** The three ways a resumed call ends. *)
Lemma resumed_cases (o : outcome) (s : page) :
  (is_regular o = true ∧ is_failure o = true ∧
     ∃ error, sendMessage_resumed o s = (normal (), caught error s)) ∨
  (∃ st data text,
     o = json_resolved st data ∧ is_regular o = true ∧ is_success data = true ∧
     to_textContent (field data (lit "response")) = inr text ∧
     success_effects s data text (exec (sendMessage_resumed o) s) ∧
     input_value (exec (sendMessage_resumed o) s) = input_value s ∧
     in_flight (exec (sendMessage_resumed o) s) = in_flight s) ∨
  (∃ st data error,
     o = json_resolved st data ∧ is_regular o = false ∧ is_success data = true ∧
     sendMessage_resumed o s =
       (normal (),
        caught error
          (Page (hidden (messages s)) (input_value s)
                (field data (lit "conversation_id")) (in_flight s)
                (log s ++ [set_conversationId (field data (lit "conversation_id"))] ++
                 removal (messages s))))).
Proof.
  destruct (is_failure o) eqn:Hf.
  - left. split; [|split; [done|by apply resumed_failure]].
    destruct o as [| |st data]; try done. simpl in *.
    apply negb_true_iff in Hf. by rewrite Hf.
  - right. destruct o as [| |st data]; try done. simpl in Hf.
    apply negb_false_iff in Hf.
    destruct (to_textContent (field data (lit "response"))) as [e|text] eqn:Ht.
    + right. exists st, data, e. simpl. rewrite Hf, Ht.
      repeat split. by apply resumed_success_throw.
    + left. exists st, data, text. simpl. rewrite Hf, Ht.
      unfold exec. rewrite (resumed_success st data text s Hf Ht).
      by repeat split.
Qed.

Lemma resumed_in_flight (o : outcome) (s : page) :
  in_flight (exec (sendMessage_resumed o) s) = in_flight s.
Proof.
  unfold exec.
  destruct (resumed_cases o s) as
    [(_ & _ & e & ->)|[(st & d & t & _ & _ & _ & _ & _ & _ & H)|(st & d & e & _ & _ & _ & ->)]];
    done.
Qed.

Lemma resumed_conversationId (o : outcome) (s : page) :
  conversationId (exec (sendMessage_resumed o) s) =
    match o with
    | json_resolved _ data =>
        if is_success data then field data (lit "conversation_id")
        else conversationId s
    | _ => conversationId s
    end.
Proof.
  unfold exec.
  destruct (resumed_cases o s) as
    [(_ & Hf & e & ->)|[(st & d & t & -> & _ & Hs & _ & (H & _) & _)|(st & d & e & -> & _ & Hs & ->)]].
  - simpl. destruct o as [| |st data]; try done.
    simpl in Hf. apply negb_true_iff in Hf. by rewrite Hf.
  - by rewrite Hs.
  - by rewrite Hs.
Qed.

(** A resumed call takes away at least as many indicators as the call it
    ends, and exactly one when the response is regular. *)
Lemma resumed_indicators (o : outcome) (s : page) :
  indicators (messages (exec (sendMessage_resumed o) s)) =
    if is_regular o then pred (indicators (messages s))
    else pred (pred (indicators (messages s))).
Proof.
  unfold exec.
  destruct (resumed_cases o s) as
    [(-> & _ & e & ->)|[(st & d & t & _ & -> & _ & _ & (_ & H & _) & _)|(st & d & e & _ & -> & _ & ->)]].
  - simpl. rewrite indicators_app, indicators_hidden, indicators_message. lia.
  - unfold exec in H. rewrite H.
    rewrite indicators_app, indicators_hidden, indicators_message. lia.
  - simpl. rewrite indicators_app, !indicators_hidden, indicators_message. lia.
Qed.

Lemma on_submit_counts (s : page) :
  (indicators (messages (exec on_submit s)) + length (in_flight s) =
   indicators (messages s) + length (in_flight (exec on_submit s)))%nat.
Proof.
  unfold exec. rewrite exec_on_submit. simpl.
  case_bool_decide; [|done]. simpl.
  rewrite indicators_app, length_app. simpl.
  change (indicators [message user (trim (input_value s)); typing_indicator])
    with 1%nat. lia.
Qed.

(** ** Invariants of runs *)

Lemma run_invariant (P : page → Prop) :
  (∀ e s s', step e s = Some s' → P s → P s') →
  ∀ es s s', run es s = Some s' → P s → P s'.
Proof.
  intros Hstep es. induction es as [|e es IH]; simpl; intros s s' Hrun HP.
  - by inversion Hrun; subst.
  - destruct (step e s) as [s1|] eqn:He; [|done]. eauto.
Qed.

Lemma run_invariant_events (Q : event → bool) (P : page → Prop) :
  (∀ e s s', Q e = true → step e s = Some s' → P s → P s') →
  ∀ es s s', Forall (λ e, Q e = true) es → run es s = Some s' → P s → P s'.
Proof.
  intros Hstep es. induction es as [|e es IH]; simpl; intros s s' HQ Hrun HP.
  - by inversion Hrun; subst.
  - destruct (step e s) as [s1|] eqn:He; [|done].
    inversion HQ; subst. eauto.
Qed.

Lemma step_indicators_le (e : event) (s s' : page) :
  step e s = Some s' →
  (indicators (messages s) ≤ length (in_flight s))%nat →
  (indicators (messages s') ≤ length (in_flight s'))%nat.
Proof.
  intros [->|[->|(i & o & -> & Hi & ->)]]%step_listener Hle.
  - pose proof (on_submit_counts s). lia.
  - done.
  - rewrite resumed_indicators, resumed_in_flight. simpl.
    rewrite length_delete by done. destruct (is_regular o); lia.
Qed.

Lemma step_indicators_eq (e : event) (s s' : page) :
  regular e = true →
  step e s = Some s' →
  indicators (messages s) = length (in_flight s) →
  indicators (messages s') = length (in_flight s').
Proof.
  intros Hr [->|[->|(i & o & -> & Hi & ->)]]%step_listener Heq.
  - pose proof (on_submit_counts s). lia.
  - done.
  - rewrite resumed_indicators, resumed_in_flight. simpl in *.
    rewrite length_delete by done. rewrite Hr. lia.
Qed.

Lemma step_identifier (e : event) (s s' : page) :
  step e s = Some s' →
  conversationId s' =
    match e with
    | settle _ (json_resolved _ data) =>
        if is_success data then field data (lit "conversation_id")
        else conversationId s
    | _ => conversationId s
    end.
Proof.
  assert (Hsub : conversationId (exec on_submit s) = conversationId s).
  { unfold exec. rewrite exec_on_submit. simpl. by case_bool_decide. }
  destruct e as [text| | |key shiftKey|i o]; simpl.
  - by intros [= <-].
  - by intros [= <-].
  - by intros [= <-].
  - intros [= <-]. unfold on_keypress.
    by destruct (bool_decide _ && negb shiftKey).
  - destruct (in_flight s !! i); [|done]. intros [= <-].
    by rewrite resumed_conversationId.
Qed.

(** ** The typing indicator over time *)

(** C4, as the code has it.  A submission of a text that is not blank
    appends the user's message node and then the typing indicator, and
    sends the request; a resumed call removes a typing indicator, if one is
    there, and only then appends its bot message, the reply or the error
    message; and in between a typing indicator is in the list for each
    exchange in flight, at every instant of every run from the loaded page
    in which no success arrives whose response value cannot be converted to
    text. *)
Theorem indicator_between_message_and_reply :
  (∀ s, trim (input_value s) ≠ [] →
        log (exec on_submit s) =
          log s ++ [appendChild (message user (trim (input_value s)));
                    scrollToBottom_; set_value [];
                    appendChild typing_indicator; scrollToBottom_;
                    fetch (chat_request (trim (input_value s)) (conversationId s))]) ∧
  (∀ s o, ∃ before text,
        log (exec (sendMessage_resumed o) s) =
          log s ++ before ++ [appendChild (message bot text); scrollToBottom_] ∧
        (∀ n, appendChild n ∉ before) ∧
        (typing_indicator ∈ messages s → remove typing_indicator ∈ before)) ∧
  (∀ GREETING es s',
        Forall (λ e, regular e = true) es →
        run es (loaded GREETING) = Some s' →
        indicators (messages s') = length (in_flight s') ∧
        (in_flight s' ≠ [] → typing_indicator ∈ messages s')).
Proof.
  split; [|split].
  - intros s Hm. unfold exec. rewrite exec_on_submit. simpl.
    by rewrite bool_decide_true.
  - intros s o.
    assert (Hrem : ∀ doc n, appendChild n ∉ removal doc).
    { intros doc n. unfold removal.
      destruct (getElementById _ doc) as [[i m]|]; [|by intros ?%elem_of_nil].
      rewrite list_elem_of_singleton. done. }
    assert (Hin : typing_indicator ∈ messages s →
                  remove typing_indicator ∈ removal (messages s)).
    { intros H%indicators_elem. rewrite (removal_some _ H). by constructor. }
    unfold exec.
    destruct (resumed_cases o s) as
      [(_ & _ & e & ->)|[(st & d & t & _ & _ & _ & _ & (_ & _ & H) & _)|(st & d & e & _ & _ & _ & ->)]].
    + exists ([console_error e] ++ removal (messages s)), error_text. simpl.
      split; [by rewrite <- ?app_assoc|]. split.
      * intros n. rewrite elem_of_cons. intros [?|?]; [done|by eapply Hrem].
      * intros Ht. rewrite elem_of_cons. right. by apply Hin.
    + exists ([set_conversationId (field d (lit "conversation_id"))] ++
              removal (messages s)), t.
      unfold exec in H. rewrite H. split; [by rewrite <- ?app_assoc|]. split.
      * intros n. simpl. rewrite elem_of_cons. intros [?|?]; [done|by eapply Hrem].
      * intros Ht. simpl. rewrite elem_of_cons. right. by apply Hin.
    + exists ([set_conversationId (field d (lit "conversation_id"))] ++
              removal (messages s) ++ [console_error e] ++
              removal (hidden (messages s))), error_text.
      simpl. split; [by rewrite <- ?app_assoc|]. split.
      * intros n. rewrite elem_of_cons, elem_of_app, elem_of_cons.
        intros [?|[?|[?|?]]]; try done; by eapply Hrem.
      * intros Ht. rewrite elem_of_cons, elem_of_app. right; left. by apply Hin.
  - intros G es s' Hreg Hrun.
    assert (Heq : indicators (messages s') = length (in_flight s')).
    { apply (run_invariant_events regular
               (λ s, indicators (messages s) = length (in_flight s))
               step_indicators_eq es (loaded G) s' Hreg Hrun).
      reflexivity. }
    split; [done|]. intros Hin. apply indicators_elem. rewrite Heq.
    by destruct (in_flight s').
Qed.

Lemma indicator_between_message_and_reply_witness :
  Forall (λ e, regular e = true)
    [input (lit "Hi"); submit; input (lit "Du"); click;
     settle 1 (json_resolved 200 success_body)] ∧
  ∃ s', run [input (lit "Hi"); submit; input (lit "Du"); click;
             settle 1 (json_resolved 200 success_body)] (loaded (lit "Hallo")) = Some s' ∧
        in_flight s' = [lit "Hi"] ∧
        indicators (messages s') = length (in_flight s').
Proof.
  assert (Hr : Forall (λ e, regular e = true)
            [input (lit "Hi"); submit; input (lit "Du"); click;
             settle 1 (json_resolved 200 success_body)])
    by (repeat constructor).
  split; [exact Hr|].
  eexists. split; [vm_compute; reflexivity|]. split; [reflexivity|].
  refine (proj1 (proj2 (proj2 indicator_between_message_and_reply) (lit "Hallo")
                   _ _ Hr _)).
  vm_compute; reflexivity.
Defined.

(** C4 as stated fails: with two exchanges in flight, a success whose
    response cannot be converted removes both indicators; the second
    exchange stays in flight with no indicator in the list, and its reply,
    when it comes, is appended without an indicator to remove. *)
Lemma indicator_gone_while_in_flight :
  ∃ s' s'',
    run [input (lit "Hi"); submit; input (lit "Du"); submit;
         settle 0 (json_resolved 200 odd_body)] (loaded (lit "Hallo")) = Some s' ∧
    in_flight s' = [lit "Du"] ∧
    messages s' = [message bot (lit "Hallo"); message user (lit "Hi");
                   message user (lit "Du"); message bot error_text] ∧
    (typing_indicator ∉ messages s') ∧
    step (settle 0 (json_resolved 200 success_body)) s' = Some s'' ∧
    log s'' = log s' ++ [set_conversationId (Some (JString (lit "abc123")));
                         appendChild (message bot (lit "Hallo!")); scrollToBottom_].
Proof.
  eexists. eexists. split; [vm_compute; reflexivity|].
  split; [reflexivity|]. split; [reflexivity|]. split.
  - rewrite <- indicators_elem. intros H. apply H. reflexivity.
  - split; [vm_compute; reflexivity|]. reflexivity.
Qed.

(** ** The request *)

Lemma run_identifier_null (es : list event) (s s' : page) :
  Forall (λ e, no_success e = true) es →
  run es s = Some s' →
  conversationId s = Some JNull → conversationId s' = Some JNull.
Proof.
  apply (run_invariant_events no_success (λ s, conversationId s = Some JNull)).
  intros e s1 s2 He Hstep Hnull. rewrite (step_identifier e s1 s2 Hstep).
  destruct e as [| | | |i [| |st data]]; try done.
  simpl in He. apply negb_true_iff in He. by rewrite He.
Qed.

(** C5, as the code has it.  Every call of [sendMessage] sends exactly
    one request, and its resumption none: a POST to /api/chat with the one
    header Content-Type: application/json, whose body has the field
    message, the submitted text, and after it the field conversation_id
    with the serialisation of the stored identifier, unless that is
    [undefined], when the body has the field message alone.  Until a first
    success arrives the stored identifier is [null], and so is the
    field. *)
Theorem exchange_sends_one_post :
  (∀ s message,
     let r := chat_request message (conversationId s) in
     requests (log (exec (sendMessage message) s)) = requests (log s) ++ [r] ∧
     url r = lit "/api/chat" ∧ method r = lit "POST" ∧
     headers r = [(lit "Content-Type", lit "application/json")] ∧
     body r = JObject ((lit "message", JString message) ::
                       match conversationId s with
                       | Some id => [(lit "conversation_id", JSON_stringify id)]
                       | None => []
                       end)) ∧
  (∀ s o, requests (log (exec (sendMessage_resumed o) s)) = requests (log s)) ∧
  (∀ GREETING es s' message,
     Forall (λ e, no_success e = true) es →
     run es (loaded GREETING) = Some s' →
     body (chat_request message (conversationId s')) =
       JObject [(lit "message", JString message); (lit "conversation_id", JNull)]).
Proof.
  split; [|split].
  - intros s message r. subst r. unfold exec. rewrite exec_sendMessage. simpl.
    rewrite requests_app. simpl.
    repeat split. by destruct (conversationId s).
  - intros s o. unfold exec.
    destruct (resumed_cases o s) as
      [(_ & _ & e & ->)|[(st & d & t & _ & _ & _ & _ & (_ & _ & H) & _)|(st & d & e & _ & _ & _ & ->)]].
    + apply requests_caught.
    + unfold exec in H. rewrite H.
      rewrite !requests_app, requests_removal. simpl. by rewrite app_nil_r.
    + cbn [snd]. rewrite requests_caught. cbn [log].
      rewrite !requests_app, requests_removal. simpl. by rewrite app_nil_r.
  - intros G es s' message Hes Hrun.
    by rewrite (run_identifier_null es (loaded G) s' Hes Hrun eq_refl).
Qed.

Lemma exchange_sends_one_post_witness :
  Forall (λ e, no_success e = true)
    [input (lit "Hi"); submit; settle 0 (json_resolved 500 error_body)] ∧
  ∃ s', run [input (lit "Hi"); submit; settle 0 (json_resolved 500 error_body)]
            (loaded (lit "Hallo")) = Some s' ∧
        body (chat_request (lit "Du") (conversationId s')) =
          JObject [(lit "message", JString (lit "Du")); (lit "conversation_id", JNull)].
Proof.
  assert (Hes : Forall (λ e, no_success e = true)
            [input (lit "Hi"); submit; settle 0 (json_resolved 500 error_body)])
    by (repeat constructor).
  split; [exact Hes|].
  eexists. split; [vm_compute; reflexivity|].
  refine (proj2 (proj2 exchange_sends_one_post) (lit "Hallo") _ _ (lit "Du") Hes _).
  vm_compute; reflexivity.
Defined.

(** C5 as stated fails: after a success without conversation_id the
    stored identifier is [undefined], and the body of the next request has
    the field message only. *)
Lemma body_without_conversation_id :
  ∃ s', run [input (lit "Hi"); submit; settle 0 (json_resolved 200 no_id_body);
             input (lit "Du"); submit] (loaded (lit "Hallo")) = Some s' ∧
        conversationId s' = undefined ∧
        last (requests (log s')) = Some (chat_request (lit "Du") undefined) ∧
        body (chat_request (lit "Du") undefined) =
          JObject [(lit "message", JString (lit "Du"))].
Proof.
  eexists. split; [vm_compute; reflexivity|].
  split; [reflexivity|]. split; reflexivity.
Qed.

(** ** The stored identifier *)

(** C6, as the code has it.  Only a success changes the stored
    identifier, and it stores the conversation_id of that response,
    whatever it is; so an identifier that is set stays set through every
    run in which each success carries a conversation_id that is neither
    [null] nor missing. *)
Theorem identifier_stays_set :
  (∀ e s s', step e s = Some s' →
     conversationId s' =
       match e with
       | settle _ (json_resolved _ data) =>
           if is_success data then field data (lit "conversation_id")
           else conversationId s
       | _ => conversationId s
       end) ∧
  (∀ es s s',
     Forall (λ e, keeps_identifier e = true) es →
     run es s = Some s' →
     is_set (conversationId s) = true → is_set (conversationId s') = true).
Proof.
  split; [exact step_identifier|].
  apply (run_invariant_events keeps_identifier (λ s, is_set (conversationId s) = true)).
  intros e s1 s2 He Hstep Hset. rewrite (step_identifier e s1 s2 Hstep).
  destruct e as [| | | |i [| |st data]]; try done.
  simpl in He. by destruct (is_success data).
Qed.

Lemma identifier_stays_set_witness :
  Forall (λ e, keeps_identifier e = true)
    [input (lit "Hi"); submit; settle 0 (json_resolved 500 error_body);
     input (lit "Du"); submit; settle 0 (json_resolved 200 success_body)] ∧
  ∃ s', run [input (lit "Hi"); submit; settle 0 (json_resolved 500 error_body);
             input (lit "Du"); submit; settle 0 (json_resolved 200 success_body)]
            (Page [] [] (Some (JString (lit "abc123"))) [] []) = Some s' ∧
        is_set (conversationId s') = true.
Proof.
  assert (Hes : Forall (λ e, keeps_identifier e = true)
            [input (lit "Hi"); submit; settle 0 (json_resolved 500 error_body);
             input (lit "Du"); submit; settle 0 (json_resolved 200 success_body)])
    by (repeat constructor).
  split; [exact Hes|].
  eexists. split; [vm_compute; reflexivity|].
  refine (proj2 identifier_stays_set _ (Page [] [] (Some (JString (lit "abc123"))) [] [])
            _ Hes _ eq_refl).
  vm_compute; reflexivity.
Defined.

(** C6 as stated fails: a first success sets the identifier, a second
    success whose conversation_id is [null] makes it [null] again. *)
Lemma identifier_cleared :
  ∃ s1 s2,
    run [input (lit "Hi"); submit; settle 0 (json_resolved 200 success_body)]
        (loaded (lit "Hallo")) = Some s1 ∧
    conversationId s1 = Some (JString (lit "abc123")) ∧
    run [input (lit "Du"); submit; settle 0 (json_resolved 200 null_id_body)] s1
      = Some s2 ∧
    conversationId s2 = Some JNull.
Proof.
  eexists. eexists. split; [vm_compute; reflexivity|].
  split; [reflexivity|]. split; [vm_compute; reflexivity|]. reflexivity.
Qed.

(** C7, as the code has it.  At every instant of every run from the
    loaded page there are no more typing indicators in the message list
    than exchanges in flight: at most one as long as at most one exchange
    is in flight. *)
Theorem indicators_at_most_in_flight (GREETING : DOMString) (es : list event) (s' : page) :
  run es (loaded GREETING) = Some s' →
  (indicators (messages s') ≤ length (in_flight s'))%nat ∧
  ((length (in_flight s') ≤ 1)%nat → (indicators (messages s') ≤ 1)%nat).
Proof.
  intros Hrun.
  assert (Hle : (indicators (messages s') ≤ length (in_flight s'))%nat).
  { apply (run_invariant
             (λ s, (indicators (messages s) ≤ length (in_flight s))%nat)
             step_indicators_le es (loaded GREETING) s' Hrun).
    vm_compute. lia. }
  split; [done|lia].
Qed.

Lemma indicators_at_most_in_flight_witness :
  ∃ s', run [input (lit "Hi"); submit; input (lit "Du")] (loaded (lit "Hallo")) = Some s' ∧
        (indicators (messages s') ≤ length (in_flight s'))%nat.
Proof.
  eexists. split; [vm_compute; reflexivity|].
  refine (proj1 (indicators_at_most_in_flight (lit "Hallo")
                   [input (lit "Hi"); submit; input (lit "Du")] _ _)).
  vm_compute; reflexivity.
Defined.

(** C7 as stated fails: a second submission while the first exchange is
    in flight appends a second typing indicator. *)
Lemma two_indicators :
  ∃ s', run [input (lit "Hi"); submit; input (lit "Du"); submit]
            (loaded (lit "Hallo")) = Some s' ∧
        messages s' = [message bot (lit "Hallo"); message user (lit "Hi");
                       typing_indicator; message user (lit "Du"); typing_indicator] ∧
        indicators (messages s') = 2%nat.
Proof. eexists. split; [vm_compute; reflexivity|]. split; reflexivity. Qed.

(** ** The three triggers *)

Lemma user_messages_app (doc doc' : list node) :
  user_messages (doc ++ doc') = user_messages doc ++ user_messages doc'.
Proof. apply filter_app. Qed.

(** C8.  With a text in the field that is not blank, each of the three
    triggers runs the same listener once: the page it leaves is the same
    for all three, has one more user message node and one more request,
    and has an empty field, so that a second trigger fired by the same
    gesture changes nothing. *)
Theorem one_submission_per_gesture (s : page) (trigger : event) :
  trim (input_value s) ≠ [] →
  trigger ∈ triggers →
  ∃ s', step trigger s = Some s' ∧
        s' = exec on_submit s ∧
        user_messages (messages s') =
          user_messages (messages s) ++ [message user (trim (input_value s))] ∧
        requests (log s') =
          requests (log s) ++
          [chat_request (trim (input_value s)) (conversationId s)] ∧
        ∀ trigger', trigger' ∈ triggers → step trigger' s' = Some s'.
Proof.
  intros Hm Ht. exists (exec on_submit s).
  split; [by apply step_trigger|]. split; [done|].
  unfold exec. rewrite exec_on_submit. simpl. rewrite bool_decide_true by done.
  simpl. split; [|split].
  - by rewrite user_messages_app.
  - by rewrite requests_app.
  - intros trigger' Ht'. rewrite (step_trigger trigger' _ Ht').
    unfold exec. by rewrite exec_on_submit.
Qed.

Lemma one_submission_per_gesture_witness :
  trim (input_value (Page [message bot (lit "Hallo")] (lit " Hi ") (Some JNull) [] []))
    ≠ [] ∧
  click ∈ triggers ∧
  ∃ s', step click (Page [message bot (lit "Hallo")] (lit " Hi ") (Some JNull) [] [])
          = Some s' ∧
        user_messages (messages s') = [message user (lit "Hi")] ∧
        requests (log s') = [chat_request (lit "Hi") (Some JNull)].
Proof.
  assert (Hm : trim (input_value (Page [message bot (lit "Hallo")] (lit " Hi ")
                                       (Some JNull) [] [])) ≠ [])
    by (vm_compute; discriminate).
  assert (Ht : click ∈ triggers) by (unfold triggers; repeat constructor).
  split; [exact Hm|]. split; [exact Ht|].
  destruct (one_submission_per_gesture
              (Page [message bot (lit "Hallo")] (lit " Hi ") (Some JNull) [] [])
              click Hm Ht) as (s' & Hstep & _ & Hu & Hr & _).
  exists s'. split; [exact Hstep|]. split; [exact Hu|exact Hr].
Defined.

(** ** The HTTP status *)

(** C9.  The resumed call does the same for every HTTP status of the
    response; with a body whose status field is [success] it takes the
    success branch, storing the body's conversation_id first, whatever the
    HTTP status. *)
Theorem http_status_is_ignored :
  (∀ s st st' data,
     sendMessage_resumed (json_resolved st data) s =
     sendMessage_resumed (json_resolved st' data) s) ∧
  (∀ s st st' reason,
     sendMessage_resumed (json_rejected st reason) s =
     sendMessage_resumed (json_rejected st' reason) s) ∧
  (∀ s st data,
     is_success data = true →
     let s' := exec (sendMessage_resumed (json_resolved st data)) s in
     conversationId s' = field data (lit "conversation_id") ∧
     (∃ rest, log s' =
                log s ++ set_conversationId (field data (lit "conversation_id")) :: rest) ∧
     ∀ text, to_textContent (field data (lit "response")) = inr text →
             success_effects s data text s').
Proof.
  split; [reflexivity|]. split; [reflexivity|].
  intros s st data Hs s'. subst s'.
  pose proof (resumed_conversationId (json_resolved st data) s) as Hid.
  simpl in Hid. rewrite Hs in Hid. split; [exact Hid|]. split.
  - unfold exec.
    destruct (to_textContent (field data (lit "response"))) as [e|text] eqn:Ht.
    + rewrite (resumed_success_throw st data e s Hs Ht). simpl.
      eexists. rewrite <- app_assoc. simpl. reflexivity.
    + rewrite (resumed_success st data text s Hs Ht). simpl.
      eexists. reflexivity.
  - intros text Ht. unfold exec. rewrite (resumed_success st data text s Hs Ht).
    by repeat split.
Qed.

Lemma http_status_is_ignored_witness :
  is_success success_body = true ∧
  conversationId (exec (sendMessage_resumed (json_resolved 500 success_body)) asked) =
    Some (JString (lit "abc123")).
Proof.
  split; [reflexivity|].
  exact (proj1 (proj2 (proj2 http_status_is_ignored) asked 500 success_body eq_refl)).
Defined.

(** ** hideTypingIndicator *)

Lemma hidden_first_indicator (before after : list node) :
  typing_indicator ∉ before →
  hidden (before ++ typing_indicator :: after) = before ++ after ∧
  removal (before ++ typing_indicator :: after) = [remove typing_indicator].
Proof.
  induction before as [|[who text|] before IH]; intros Hnot.
  - done.
  - simpl. rewrite hidden_message, removal_message.
    destruct IH as [-> ->]; [|done].
    intros Hin. apply Hnot. by right.
  - exfalso. apply Hnot. by left.
Qed.

(** C10, as the code has it.  Without a typing indicator in the message
    list [hideTypingIndicator] leaves the page as it is; and with at most
    one in the list, calling it twice does what calling it once does.  With
    any number of them, a call removes exactly one node, the first
    indicator in document order, and nothing else, so that with two or more
    each call removes one more. *)
Theorem hide_twice_is_hide_once (s : page) :
  (typing_indicator ∉ messages s → exec hideTypingIndicator s = s) ∧
  ((indicators (messages s) ≤ 1)%nat →
   exec hideTypingIndicator (exec hideTypingIndicator s) = exec hideTypingIndicator s) ∧
  (∀ before after,
     typing_indicator ∉ before →
     messages s = before ++ typing_indicator :: after →
     exec hideTypingIndicator s =
       Page (before ++ after) (input_value s) (conversationId s) (in_flight s)
            (log s ++ [remove typing_indicator])) ∧
  indicators (messages (exec hideTypingIndicator s)) = pred (indicators (messages s)) ∧
  ((2 ≤ indicators (messages s))%nat →
   S (indicators (messages (exec hideTypingIndicator (exec hideTypingIndicator s)))) =
     indicators (messages (exec hideTypingIndicator s)) ∧
   exec hideTypingIndicator (exec hideTypingIndicator s) ≠ exec hideTypingIndicator s).
Proof.
  assert (Hnone : ∀ s0, indicators (messages s0) = 0%nat →
                        exec hideTypingIndicator s0 = s0).
  { intros s0 H0. unfold exec. rewrite exec_hideTypingIndicator. simpl.
    destruct (hidden_none _ H0) as [-> ->]. rewrite app_nil_r. by destruct s0. }
  assert (Hpred : ∀ s0, indicators (messages (exec hideTypingIndicator s0)) =
                        pred (indicators (messages s0))).
  { intros s0. unfold exec. rewrite exec_hideTypingIndicator. simpl.
    apply indicators_hidden. }
  split; [|split; [|split; [|split]]].
  - intros Hnot. apply Hnone.
    destruct (indicators (messages s)) eqn:Hn; [done|].
    exfalso. apply Hnot, indicators_elem. lia.
  - intros Hle. apply Hnone. rewrite Hpred. lia.
  - intros before after Hnot Hm. unfold exec. rewrite exec_hideTypingIndicator.
    simpl. rewrite Hm.
    by destruct (hidden_first_indicator before after Hnot) as [-> ->].
  - apply Hpred.
  - intros H2. rewrite !Hpred. split; [lia|].
    intros Heq. apply (f_equal (λ p, indicators (messages p))) in Heq.
    simpl in Heq. rewrite !Hpred in Heq. lia.
Qed.

Lemma hide_twice_is_hide_once_witness :
  ((indicators (messages asked) ≤ 1)%nat ∧
   exec hideTypingIndicator (exec hideTypingIndicator asked) =
     exec hideTypingIndicator asked) ∧
  ((typing_indicator ∉ [message bot (lit "Hallo"); message user (lit "Hi")]) ∧
   (2 ≤ indicators [message bot (lit "Hallo"); message user (lit "Hi");
                    typing_indicator; message user (lit "Du"); typing_indicator])%nat ∧
   messages (exec hideTypingIndicator
               (Page [message bot (lit "Hallo"); message user (lit "Hi");
                      typing_indicator; message user (lit "Du"); typing_indicator]
                     [] (Some JNull) [lit "Hi"; lit "Du"] [])) =
     [message bot (lit "Hallo"); message user (lit "Hi")] ++
     [message user (lit "Du"); typing_indicator]).
Proof.
  assert (Hle : (indicators (messages asked) ≤ 1)%nat) by (vm_compute; lia).
  assert (Hnot : typing_indicator ∉ [message bot (lit "Hallo"); message user (lit "Hi")]).
  { rewrite <- indicators_elem. intros H. apply H. reflexivity. }
  assert (H2 : (2 ≤ indicators [message bot (lit "Hallo"); message user (lit "Hi");
                                typing_indicator; message user (lit "Du");
                                typing_indicator])%nat)
    by (vm_compute; lia).
  split; [split; [exact Hle|]|split; [exact Hnot|split; [exact H2|]]].
  - exact (proj1 (proj2 (hide_twice_is_hide_once asked)) Hle).
  - exact (f_equal messages
             (proj1 (proj2 (proj2
                (hide_twice_is_hide_once
                   (Page [message bot (lit "Hallo"); message user (lit "Hi");
                          typing_indicator; message user (lit "Du"); typing_indicator]
                         [] (Some JNull) [lit "Hi"; lit "Du"] []))))
                [message bot (lit "Hallo"); message user (lit "Hi")]
                [message user (lit "Du"); typing_indicator] Hnot eq_refl)).
Defined.

(** C10 as stated fails: with two exchanges in flight there are two
    indicators, and the second call removes the second. *)
Lemma hide_twice_removes_two :
  ∃ s, run [input (lit "Hi"); submit; input (lit "Du"); submit]
           (loaded (lit "Hallo")) = Some s ∧
       messages (exec hideTypingIndicator s) =
         [message bot (lit "Hallo"); message user (lit "Hi");
          message user (lit "Du"); typing_indicator] ∧
       messages (exec hideTypingIndicator (exec hideTypingIndicator s)) =
         [message bot (lit "Hallo"); message user (lit "Hi"); message user (lit "Du")] ∧
       exec hideTypingIndicator (exec hideTypingIndicator s) ≠
         exec hideTypingIndicator s.
Proof.
  eexists. split; [vm_compute; reflexivity|].
  split; [reflexivity|]. split; [reflexivity|].
  intros H. apply (f_equal messages) in H. vm_compute in H. discriminate H.
Qed.

(** * Further properties of the script *)

(** ** trim *)

Lemma trimStart_suffix (s : DOMString) :
  ∃ pre, s = pre ++ trimStart s ∧ Forall (λ c, is_white_space c = true) pre.
Proof.
  induction s as [|c s (pre & Hs & Hpre)]; simpl.
  - by exists [].
  - destruct (is_white_space c) eqn:Hc.
    + exists (c :: pre). split; [by rewrite Hs at 1|by constructor].
    + by exists [].
Qed.

Lemma trimStart_head (s : DOMString) (c : N) :
  head (trimStart s) = Some c → is_white_space c = false.
Proof.
  induction s as [|d s IH]; simpl; [done|].
  destruct (is_white_space d) eqn:Hd; [done|]. simpl. congruence.
Qed.

Lemma trimStart_snoc (s : DOMString) (c : N) :
  is_white_space c = false → ∃ t, trimStart (s ++ [c]) = t ++ [c].
Proof.
  intros Hc. induction s as [|d s [t Ht]]; simpl.
  - rewrite Hc. by exists [].
  - destruct (is_white_space d); [by exists t|]. by exists (d :: s).
Qed.

Lemma trim_is_trimmed (s : DOMString) : trim s ≠ [] → is_trimmed (trim s).
Proof.
  intros Hne. unfold trim, trimEnd in *.
  destruct (trimStart s) as [|c t] eqn:Hs; [done|].
  assert (Hc : is_white_space c = false)
    by (apply (trimStart_head s); by rewrite Hs).
  split.
  - exists c. split; [|done].
    rewrite reverse_cons. destruct (trimStart_snoc (reverse t) c Hc) as [u ->].
    by rewrite reverse_app.
  - destruct (trimStart (reverse (c :: t))) as [|d u] eqn:Hr; [done|].
    exists d. split; [|apply (trimStart_head (reverse (c :: t))); by rewrite Hr].
    rewrite reverse_cons, last_snoc. done.
Qed.

Lemma trim_decompose (s : DOMString) :
  ∃ pre post, s = pre ++ trim s ++ post ∧
              Forall (λ c, is_white_space c = true) pre ∧
              Forall (λ c, is_white_space c = true) post.
Proof.
  destruct (trimStart_suffix s) as (pre & Hs & Hpre).
  destruct (trimStart_suffix (reverse (trimStart s))) as (rpost & Hr & Hpost).
  exists pre, (reverse rpost). split; [|split; [done|by apply Forall_reverse]].
  unfold trim, trimEnd. rewrite <- reverse_app, <- Hr, reverse_involutive. done.
Qed.

(** ** The steps, by what they do *)

Lemma quiet_removal (doc : list node) :
  Forall (λ e, is_quiet e = true) (removal doc).
Proof.
  unfold removal. destruct (getElementById _ doc) as [[i n]|]; repeat constructor.
Qed.

Lemma chat_app (doc doc' : list node) : chat (doc ++ doc') = chat doc ++ chat doc'.
Proof. apply filter_app. Qed.

Lemma chat_hidden (doc : list node) : chat (hidden doc) = chat doc.
Proof.
  induction doc as [|[who text|] doc IH].
  - reflexivity.
  - rewrite hidden_message. unfold chat in *. rewrite !filter_cons. simpl.
    by rewrite IH.
  - by rewrite hidden_indicator.
Qed.

(** A resumed call always returns normally.  It takes indicators only
    out of the list, appends one bot message at its end, logs nothing that
    appends or sends before that, and leaves the field and the calls in
    flight alone. *)
Lemma resumed_summary (o : outcome) (s : page) :
  ∃ doc text id before,
    sendMessage_resumed o s =
      (normal (),
       Page (doc ++ [message bot text]) (input_value s) id (in_flight s)
            (log s ++ before ++ [appendChild (message bot text); scrollToBottom_])) ∧
    (doc = hidden (messages s) ∨ doc = hidden (hidden (messages s))) ∧
    chat doc = chat (messages s) ∧
    Forall (λ e, is_quiet e = true) before.
Proof.
  destruct (resumed_cases o s) as
    [(_ & _ & e & ->)|[(st & d & t & -> & _ & Hs & Ht & _)|(st & d & e & _ & _ & _ & ->)]].
  - exists (hidden (messages s)), error_text, (conversationId s),
      ([console_error e] ++ removal (messages s)).
    split; [unfold caught; by rewrite <- ?app_assoc|].
    split; [by left|]. split; [apply chat_hidden|].
    apply Forall_app. split; [by repeat constructor|apply quiet_removal].
  - exists (hidden (messages s)), t, (field d (lit "conversation_id")),
      ([set_conversationId (field d (lit "conversation_id"))] ++ removal (messages s)).
    rewrite (resumed_success st d t s Hs Ht).
    split; [by rewrite <- ?app_assoc|]. split; [by left|].
    split; [apply chat_hidden|].
    apply Forall_app. split; [by repeat constructor|apply quiet_removal].
  - exists (hidden (hidden (messages s))), error_text, (field d (lit "conversation_id")),
      ([set_conversationId (field d (lit "conversation_id"))] ++ removal (messages s) ++
       [console_error e] ++ removal (hidden (messages s))).
    split; [unfold caught; simpl; by rewrite <- ?app_assoc|].
    split; [by right|]. split; [by rewrite !chat_hidden|].
    repeat (apply Forall_app; split); try apply quiet_removal; by repeat constructor.
Qed.

(** A step is idle, a submission, or the end of an exchange. *)
Lemma step_kinds (e : event) (s s' : page) :
  step e s = Some s' →
  (is_settle e = false ∧
   s' = Page (messages s) (input_value s') (conversationId s) (in_flight s) (log s)) ∨
  (is_settle e = false ∧ trim (input_value s) ≠ [] ∧
   s' = Page (messages s ++ [message user (trim (input_value s)); typing_indicator])
             [] (conversationId s) (in_flight s ++ [trim (input_value s)])
             (log s ++ [appendChild (message user (trim (input_value s)));
                        scrollToBottom_; set_value [];
                        appendChild typing_indicator; scrollToBottom_;
                        fetch (chat_request (trim (input_value s)) (conversationId s))])) ∨
  (∃ i o doc text id before,
     e = settle i o ∧ is_Some (in_flight s !! i) ∧
     s' = Page (doc ++ [message bot text]) (input_value s) id (delete i (in_flight s))
               (log s ++ before ++ [appendChild (message bot text); scrollToBottom_]) ∧
     (doc = hidden (messages s) ∨ doc = hidden (hidden (messages s))) ∧
     chat doc = chat (messages s) ∧
     Forall (λ e, is_quiet e = true) before).
Proof.
  assert (Hsub : ∀ s0 : page,
    exec on_submit s0 = s0 ∨
    (trim (input_value s0) ≠ [] ∧
     exec on_submit s0 =
       Page (messages s0 ++ [message user (trim (input_value s0)); typing_indicator])
            [] (conversationId s0) (in_flight s0 ++ [trim (input_value s0)])
            (log s0 ++ [appendChild (message user (trim (input_value s0)));
                        scrollToBottom_; set_value [];
                        appendChild typing_indicator; scrollToBottom_;
                        fetch (chat_request (trim (input_value s0)) (conversationId s0))]))).
  { intros s0. unfold exec. rewrite exec_on_submit. simpl.
    case_bool_decide; [by right|by left]. }
  assert (Hidle : ∀ s0 : page,
    s0 = Page (messages s0) (input_value s0) (conversationId s0) (in_flight s0) (log s0))
    by (by intros []).
  destruct e as [text| | |key shiftKey|i o]; simpl.
  - intros [= <-]. by left.
  - intros [= <-]. destruct (Hsub s) as [->|[Hm ->]]; [left|right; left]; auto.
  - intros [= <-]. unfold on_click, dispatch_submit.
    destruct (Hsub s) as [->|[Hm ->]]; [left|right; left]; auto.
  - intros [= <-]. unfold on_keypress, dispatch_submit.
    destruct (bool_decide _ && negb shiftKey).
    + destruct (Hsub s) as [->|[Hm ->]]; [left|right; left]; auto.
    + left. split; [done|]. apply Hidle.
  - destruct (in_flight s !! i) as [m|] eqn:Hi; [|done]. intros [= <-].
    right; right.
    destruct (resumed_summary o
                (Page (messages s) (input_value s) (conversationId s)
                      (delete i (in_flight s)) (log s)))
      as (doc & text & id & before & Hr & Hhid & Hdoc & Hq).
    exists i, o, doc, text, id, before. unfold exec. rewrite Hr. simpl.
    repeat split; eauto.
Qed.

Lemma requests_quiet (l : list effect) :
  Forall (λ e, is_quiet e = true) l → requests l = [].
Proof.
  induction 1 as [|e l He _ IH]; [done|].
  change (e :: l) with ([e] ++ l). rewrite requests_app, IH.
  by destruct e.
Qed.

Lemma user_messages_chat (doc : list node) :
  user_messages (chat doc) = user_messages doc.
Proof.
  induction doc as [|[[|] text|] doc IH]; [done|..];
    unfold user_messages, chat in *; rewrite ?filter_cons; simpl;
    rewrite ?filter_cons; simpl; by rewrite IH.
Qed.

Lemma bot_messages_chat (doc : list node) :
  bot_messages (chat doc) = bot_messages doc.
Proof.
  induction doc as [|[[|] text|] doc IH]; [done|..];
    unfold bot_messages, chat in *; rewrite ?filter_cons; simpl;
    rewrite ?filter_cons; simpl; by rewrite IH.
Qed.

(** ** The greeting *)

(** X1.  When the page has loaded, the message list holds the greeting
    as a bot message and nothing else, nothing has been sent and nothing
    is in flight; and whatever happens afterwards, the greeting stays the
    first node of the list. *)
Theorem greeting_stays_first (GREETING : DOMString) :
  messages (loaded GREETING) = [message bot GREETING] ∧
  requests (log (loaded GREETING)) = [] ∧
  in_flight (loaded GREETING) = [] ∧
  ∀ es s', run es (loaded GREETING) = Some s' →
           ∃ rest, messages s' = message bot GREETING :: rest.
Proof.
  split; [reflexivity|]. split; [reflexivity|]. split; [reflexivity|].
  intros es s' Hrun.
  apply (run_invariant (λ s, ∃ rest, messages s = message bot GREETING :: rest))
    with (es := es) (s := loaded GREETING); [|done|by exists []].
  intros e s1 s2 Hstep [rest Hrest].
  destruct (step_kinds e s1 s2 Hstep) as
    [(_ & ->)|[(_ & _ & ->)|(i & o & doc & text & id & before & _ & _ & -> & Hdoc & _)]];
    simpl.
  - eauto.
  - rewrite Hrest. simpl. eauto.
  - rewrite Hrest in Hdoc.
    destruct Hdoc as [->| ->]; rewrite !hidden_message; simpl; eauto.
Qed.

Lemma greeting_stays_first_witness :
  ∃ s', run [input (lit "Hi"); submit; settle 0 (json_resolved 200 odd_body)]
            (loaded (lit "Hallo")) = Some s' ∧
        ∃ rest, messages s' = message bot (lit "Hallo") :: rest.
Proof.
  eexists. split; [vm_compute; reflexivity|].
  refine (proj2 (proj2 (proj2 (greeting_stays_first (lit "Hallo"))))
            [input (lit "Hi"); submit; settle 0 (json_resolved 200 odd_body)] _ _).
  vm_compute; reflexivity.
Defined.

(** ** addMessage *)

Lemma ToString_array_cons (x : json) (rest : list json) :
  ToString (JArray (x :: rest)) = None ↔
  (x ≠ JNull ∧ ToString x = None) ∨ ToString (JArray rest) = None.
Proof.
  change (ToString (JArray (x :: rest))) with
    (match (match x with JNull => Some [] | _ => ToString x end) with
     | None => None
     | Some a =>
         match rest with
         | [] => Some a
         | _ :: _ =>
             match ToString (JArray rest) with
             | None => None
             | Some b => Some (a ++ lit "," ++ b)
             end
         end
     end).
  assert (He : (match x with JNull => Some [] | _ => ToString x end) = None ↔
               x ≠ JNull ∧ ToString x = None).
  { destruct x; split; try done; try (by intros [? ?]); by intros ->. }
  destruct (match x with JNull => Some [] | _ => ToString x end) as [a|].
  - destruct rest as [|y rest].
    + change (ToString (JArray [])) with (Some ([] : DOMString)).
      split; [done|]. intros [H|H]; [by apply He in H|done].
    + destruct (ToString (JArray (y :: rest))) as [b|].
      * split; [done|]. intros [H|H]; [by apply He in H|done].
      * split; [by right|done].
  - split; [|done]. intros _. left. by apply He.
Qed.

Lemma ToString_unconvertible (j : json) :
  ToString j = None ↔ unconvertible j.
Proof.
  revert j. apply json_induction.
  - split; [done|by inversion 1].
  - intros b. split; [by destruct b|by inversion 1].
  - intros [d|neg]; (split; [by try destruct neg|by inversion 1]).
  - intros t. split; [done|by inversion 1].
  - intros items IH. induction IH as [|x rest Hx _ IHrest].
    + split; [done|]. inversion 1 as [|? ? Hin]; subst. by apply elem_of_nil in Hin.
    + rewrite ToString_array_cons. split.
      * intros [[_ Hnone]|Hrest].
        -- apply (unconvertible_array _ x); [by left|by apply Hx].
        -- apply IHrest in Hrest. inversion Hrest as [|? y Hin Hy]; subst.
           apply (unconvertible_array _ y); [by right|done].
      * inversion 1 as [|? y Hin Hy]; subst.
        apply elem_of_cons in Hin as [->|Hin].
        -- left. split; [by inversion Hy|by apply Hx].
        -- right. apply IHrest. by apply (unconvertible_array _ y).
  - intros props. simpl. split.
    + destruct (own_property _ props) as [v|] eqn:Hv; [|done].
      intros _. by apply (unconvertible_object _ v).
    + inversion 1 as [? v Hv|]; subst. by rewrite Hv.
Qed.

(** X2.  [addMessage] is all or nothing.  Either it appends exactly one
    node at the end of the list, of the class the flag asks for, and
    scrolls; or it throws a TypeError and leaves the page as it was, which
    happens exactly when the content is an object with a property
    [toString] or an array that has such a value among its elements.  A
    string is rendered as it is. *)
Theorem addMessage_all_or_nothing (content : value) (isUser : bool) (s : page) :
  ((∃ j, content = Some j ∧ unconvertible j) ∧
   addMessage content isUser s = (abrupt TypeError, s)) ∨
  ((¬ ∃ j, content = Some j ∧ unconvertible j) ∧
   ∃ text,
     addMessage content isUser s =
       (normal (),
        Page (messages s ++ [message (if isUser then user else bot) text])
             (input_value s) (conversationId s) (in_flight s)
             (log s ++ [appendChild (message (if isUser then user else bot) text);
                        scrollToBottom_])) ∧
     ∀ t, content = Some (JString t) → text = t).
Proof.
  rewrite exec_addMessage. unfold to_textContent.
  destruct content as [j|].
  - destruct (ToString j) as [t|] eqn:Hj.
    + right. split.
      { intros (j' & [= <-] & Hu). apply ToString_unconvertible in Hu. congruence. }
      destruct j; try (exists t; split; [done|]; intros ? [= <-]; simpl in Hj; congruence).
      exists []. split; [done|]. intros ? [=].
    + left. assert (Hu : unconvertible j) by by apply ToString_unconvertible.
      split; [by exists j|]. by destruct j.
  - right. split; [by intros (j & [=] & _)|].
    exists []. split; [done|]. intros ? [=].
Qed.

(** ** The conversation on the page *)

Lemma step_chat (e : event) (s s' : page) :
  step e s = Some s' → ∃ new, chat (messages s') = chat (messages s) ++ new.
Proof.
  intros Hstep.
  destruct (step_kinds e s s' Hstep) as
    [(_ & ->)|[(_ & _ & ->)|(i & o & doc & text & id & before & _ & _ & -> & _ & Hdoc & _)]];
    simpl.
  - exists []. by rewrite app_nil_r.
  - rewrite chat_app. eauto.
  - rewrite chat_app, Hdoc. eauto.
Qed.

(** X3.  The script never removes, changes or reorders a message: through
    every run, the message nodes that were in the list are still there, in
    the same order and with the same text, as the beginning of the message
    nodes of the list; only typing indicators are ever taken out. *)
Theorem messages_only_appended (es : list event) (s s' : page) :
  run es s = Some s' →
  chat (messages s) `prefix_of` chat (messages s').
Proof.
  intros Hrun.
  apply (run_invariant (λ s1, chat (messages s) `prefix_of` chat (messages s1)))
    with (es := es) (s := s); [|done|done].
  intros e s1 s2 Hstep [k Hk]. destruct (step_chat e s1 s2 Hstep) as [new Hnew].
  exists (k ++ new). by rewrite Hnew, Hk, app_assoc.
Qed.

Lemma messages_only_appended_witness :
  ∃ s', run [input (lit "Du"); click; settle 1 (json_resolved 200 odd_body);
             settle 0 (fetch_rejected TypeError)] asked = Some s' ∧
        chat (messages asked) `prefix_of` chat (messages s').
Proof.
  eexists. split; [vm_compute; reflexivity|].
  refine (messages_only_appended
            [input (lit "Du"); click; settle 1 (json_resolved 200 odd_body);
             settle 0 (fetch_rejected TypeError)] asked _ _).
  vm_compute; reflexivity.
Defined.

(** X4.  Through every run from the loaded page the requests sent and the
    user messages in the list correspond one to one and in order: the n-th
    request is a POST to /api/chat whose message is the text of the n-th
    user message. *)
Theorem requests_match_user_messages (GREETING : DOMString) (es : list event) (s' : page) :
  run es (loaded GREETING) = Some s' →
  Forall2 (λ r n, ∃ id, r = chat_request (node_text n) id)
          (requests (log s')) (user_messages (messages s')).
Proof.
  intros Hrun.
  apply (run_invariant
           (λ s, Forall2 (λ r n, ∃ id, r = chat_request (node_text n) id)
                         (requests (log s)) (user_messages (messages s))))
    with (es := es) (s := loaded GREETING); [|done|by constructor].
  intros e s1 s2 Hstep Hinv.
  destruct (step_kinds e s1 s2 Hstep) as
    [(_ & ->)|[(_ & _ & ->)|(i & o & doc & text & id & before & _ & _ & -> & _ & Hdoc & Hq)]];
    simpl.
  - done.
  - rewrite requests_app, user_messages_app. apply Forall2_app; [done|].
    repeat constructor. by eexists.
  - rewrite !requests_app, (requests_quiet before Hq), user_messages_app.
    simpl. rewrite !app_nil_r.
    by rewrite <- (user_messages_chat doc), Hdoc, user_messages_chat.
Qed.

Lemma requests_match_user_messages_witness :
  ∃ s', run [input (lit "Hi"); submit; input (lit " Du "); click;
             settle 1 (json_resolved 200 success_body)] (loaded (lit "Hallo")) = Some s' ∧
        Forall2 (λ r n, ∃ id, r = chat_request (node_text n) id)
                (requests (log s')) (user_messages (messages s')).
Proof.
  eexists. split; [vm_compute; reflexivity|].
  refine (requests_match_user_messages (lit "Hallo")
            [input (lit "Hi"); submit; input (lit " Du "); click;
             settle 1 (json_resolved 200 success_body)] _ _).
  vm_compute; reflexivity.
Defined.

(** X5.  Every exchange is answered by exactly one bot message, the reply
    or the error message, when it settles and not before: through every
    run from the loaded page, the bot messages in the list are the
    greeting and one for each request that is no longer in flight. *)
Theorem one_bot_message_per_settled_exchange
    (GREETING : DOMString) (es : list event) (s' : page) :
  run es (loaded GREETING) = Some s' →
  (length (bot_messages (messages s')) + length (in_flight s') =
   1 + length (requests (log s')))%nat.
Proof.
  intros Hrun.
  apply (run_invariant
           (λ s, (length (bot_messages (messages s)) + length (in_flight s) =
                  1 + length (requests (log s)))%nat))
    with (es := es) (s := loaded GREETING); [|done|reflexivity].
  intros e s1 s2 Hstep Hinv.
  destruct (step_kinds e s1 s2 Hstep) as
    [(_ & ->)|[(_ & _ & ->)|(i & o & doc & text & id & before & _ & Hi & -> & _ & Hdoc & Hq)]];
    simpl.
  - done.
  - rewrite requests_app. unfold bot_messages in *.
    rewrite filter_app, !length_app. simpl. lia.
  - rewrite !requests_app, (requests_quiet before Hq). simpl. rewrite !app_nil_r.
    assert (Hb : bot_messages doc = bot_messages (messages s1))
      by (by rewrite <- (bot_messages_chat doc), Hdoc, bot_messages_chat).
    unfold bot_messages in *. rewrite filter_app, length_app, Hb. simpl.
    rewrite length_delete by done.
    apply lookup_lt_is_Some in Hi. lia.
Qed.

Lemma one_bot_message_per_settled_exchange_witness :
  ∃ s', run [input (lit "Hi"); submit; input (lit "Du"); click;
             settle 0 (json_resolved 200 odd_body)] (loaded (lit "Hallo")) = Some s' ∧
        (length (bot_messages (messages s')) + length (in_flight s') =
         1 + length (requests (log s')))%nat.
Proof.
  eexists. split; [vm_compute; reflexivity|].
  refine (one_bot_message_per_settled_exchange (lit "Hallo")
            [input (lit "Hi"); submit; input (lit "Du"); click;
             settle 0 (json_resolved 200 odd_body)] _ _).
  vm_compute; reflexivity.
Defined.

(** ** What is submitted *)

(** X6.  What the submit listener renders and sends is the text of the
    field with the white space at its two ends taken off and nothing else
    changed: white space inside the text stays.  The node appended, the
    call put in flight and the message field of the one request sent all
    hold that text, and the field is emptied.  So every user message in
    the list, through every run from the loaded page, is not empty and has
    no white space at either end. *)
Theorem submitted_text_is_trimmed :
  (∀ s, trim (input_value s) ≠ [] →
        ∃ pre post,
          input_value s = pre ++ trim (input_value s) ++ post ∧
          Forall (λ c, is_white_space c = true) pre ∧
          Forall (λ c, is_white_space c = true) post ∧
          is_trimmed (trim (input_value s)) ∧
          messages (exec on_submit s) =
            messages s ++ [message user (trim (input_value s)); typing_indicator] ∧
          input_value (exec on_submit s) = [] ∧
          in_flight (exec on_submit s) = in_flight s ++ [trim (input_value s)] ∧
          log (exec on_submit s) =
            log s ++ [appendChild (message user (trim (input_value s)));
                      scrollToBottom_; set_value [];
                      appendChild typing_indicator; scrollToBottom_;
                      fetch (chat_request (trim (input_value s)) (conversationId s))] ∧
          ∃ r, requests (log (exec on_submit s)) = requests (log s) ++ [r] ∧
               field (body r) (lit "message") =
                 Some (JString (trim (input_value s)))) ∧
  (∀ GREETING es s',
     run es (loaded GREETING) = Some s' →
     Forall (λ n, is_trimmed (node_text n)) (user_messages (messages s'))).
Proof.
  split.
  - intros s Hm. destruct (trim_decompose (input_value s)) as (pre & post & H & Hpre & Hpost).
    exists pre, post. split; [done|]. split; [done|]. split; [done|].
    split; [by apply trim_is_trimmed|].
    unfold exec. rewrite exec_on_submit. simpl. rewrite bool_decide_true by done.
    simpl. repeat (split; [done|]).
    exists (chat_request (trim (input_value s)) (conversationId s)).
    split; [by rewrite requests_app|apply chat_request_message].
  - intros G es s' Hrun.
    apply (run_invariant
             (λ s, Forall (λ n, is_trimmed (node_text n)) (user_messages (messages s))))
      with (es := es) (s := loaded G); [|done|by constructor].
    intros e s1 s2 Hstep Hinv.
    destruct (step_kinds e s1 s2 Hstep) as
      [(_ & ->)|[(_ & Hm & ->)|(i & o & doc & text & id & before & _ & _ & -> & _ & Hdoc & _)]];
      simpl.
    + done.
    + rewrite user_messages_app. apply Forall_app. split; [done|].
      repeat constructor; by apply trim_is_trimmed.
    + rewrite user_messages_app. simpl. rewrite app_nil_r.
      by rewrite <- (user_messages_chat doc), Hdoc, user_messages_chat.
Qed.

Lemma submitted_text_is_trimmed_witness :
  (∃ s', run [input ([32; 10] ++ lit "Hi,  du" ++ [9; 160]); submit]
             (loaded (lit "Hallo")) = Some s' ∧
         user_messages (messages s') = [message user (lit "Hi,  du")] ∧
         Forall (λ n, is_trimmed (node_text n)) (user_messages (messages s'))) ∧
  (trim (input_value (Page [] ([32; 10] ++ lit "Hi,  du" ++ [9; 160])
                           (Some JNull) [] [])) ≠ [] ∧
   log (exec on_submit (Page [] ([32; 10] ++ lit "Hi,  du" ++ [9; 160])
                             (Some JNull) [] [])) =
     [appendChild (message user (lit "Hi,  du")); scrollToBottom_; set_value [];
      appendChild typing_indicator; scrollToBottom_;
      fetch (chat_request (lit "Hi,  du") (Some JNull))]).
Proof.
  split.
  - eexists. split; [vm_compute; reflexivity|]. split; [reflexivity|].
    refine (proj2 submitted_text_is_trimmed (lit "Hallo")
              [input ([32; 10] ++ lit "Hi,  du" ++ [9; 160]); submit] _ _).
    vm_compute; reflexivity.
  - assert (Hm : trim (input_value (Page [] ([32; 10] ++ lit "Hi,  du" ++ [9; 160])
                                         (Some JNull) [] [])) ≠ [])
      by (vm_compute; discriminate).
    split; [exact Hm|].
    destruct (proj1 submitted_text_is_trimmed
                (Page [] ([32; 10] ++ lit "Hi,  du" ++ [9; 160]) (Some JNull) [] []) Hm)
      as (pre & post & _ & _ & _ & _ & _ & _ & _ & Hlog & _).
    exact Hlog.
Defined.

(** X7.  A key other than Enter, and Enter with shift held, submit
    nothing: the keypress listener leaves the page as it is, whatever the
    field holds. *)
Theorem other_keys_do_nothing (key : DOMString) (shiftKey : bool) (s : page) :
  key ≠ lit "Enter" ∨ shiftKey = true →
  step (keypress key shiftKey) s = Some s.
Proof.
  intros H. simpl. unfold on_keypress.
  assert (bool_decide (key = lit "Enter") && negb shiftKey = false) as ->.
  { destruct H as [H| ->]; [by rewrite bool_decide_false|by rewrite andb_false_r]. }
  reflexivity.
Qed.

Lemma other_keys_do_nothing_witness :
  (lit "Enter" ≠ lit "Enter" ∨ true = true) ∧
  step (keypress (lit "Enter") true)
       (Page [message bot (lit "Hallo")] (lit "Hi") (Some JNull) [] []) =
    Some (Page [message bot (lit "Hallo")] (lit "Hi") (Some JNull) [] []).
Proof.
  split; [by right|].
  exact (other_keys_do_nothing (lit "Enter") true
           (Page [message bot (lit "Hallo")] (lit "Hi") (Some JNull) [] [])
           (or_intror eq_refl)).
Defined.

(** ** A response arrives *)

(** X8.  When an exchange settles, whatever the outcome, the resumed call
    returns normally; the text the user has in the field stays there, the
    other exchanges stay in flight, no request is sent, no message node is
    taken out of the list, and exactly one bot message is appended at its
    end. *)
Theorem settling_is_local (i : nat) (o : outcome) (s s' : page) :
  step (settle i o) s = Some s' →
  input_value s' = input_value s ∧
  in_flight s' = delete i (in_flight s) ∧
  requests (log s') = requests (log s) ∧
  ∃ text, last (messages s') = Some (message bot text) ∧
          chat (messages s') = chat (messages s) ++ [message bot text].
Proof.
  intros Hstep.
  destruct (step_kinds _ s s' Hstep) as
    [([=] & _)|[([=] & _)|(i' & o' & doc & text & id & before & [= <- <-] & _ & -> & _ & Hdoc & Hq)]].
  simpl. split; [done|]. split; [done|]. split.
  - rewrite !requests_app, (requests_quiet before Hq). simpl. by rewrite !app_nil_r.
  - exists text. split; [apply last_snoc|]. by rewrite chat_app, Hdoc.
Qed.

Lemma settling_is_local_witness :
  ∃ s s',
    run [input (lit "noch am Tippen")] asked = Some s ∧
    step (settle 0 (json_rejected 502 SyntaxError)) s = Some s' ∧
    input_value s' = lit "noch am Tippen".
Proof.
  eexists. eexists. split; [vm_compute; reflexivity|].
  assert (Hstep : step (settle 0 (json_rejected 502 SyntaxError))
                    (Page (messages asked) (lit "noch am Tippen") (conversationId asked)
                          (in_flight asked) (log asked)) =
                  Some (exec (sendMessage_resumed (json_rejected 502 SyntaxError))
                          (Page (messages asked) (lit "noch am Tippen")
                                (conversationId asked) [] (log asked))))
    by reflexivity.
  split; [exact Hstep|].
  exact (proj1 (settling_is_local 0 (json_rejected 502 SyntaxError) _ _ Hstep)).
Defined.

(** ** Scrolling *)

Lemma scrolled_app_both (l2 : list effect) :
  scrolled l2 = true →
  ∀ l1, (scrolled l1 = true → scrolled (l1 ++ l2) = true) ∧
        (∀ e, scrolled (e :: l1) = true → scrolled ((e :: l1) ++ l2) = true).
Proof.
  intros H2. induction l1 as [|d l1 [IH1 IH2]].
  - split; [done|]. intros e He. destruct e; try done.
  - split; [apply IH2|].
    intros e He. destruct e; try (by apply IH2).
    destruct d; try done. simpl in *. by apply IH1.
Qed.

Lemma scrolled_app (l1 l2 : list effect) :
  scrolled l1 = true → scrolled l2 = true → scrolled (l1 ++ l2) = true.
Proof. intros H1 H2. by apply (scrolled_app_both l2 H2 l1). Qed.

Lemma scrolled_quiet (l : list effect) :
  Forall (λ e, is_quiet e = true) l → scrolled l = true.
Proof. induction 1 as [|e l He _ IH]; [done|]. by destruct e. Qed.

Lemma scrolled_at (before : list effect) (n : node) (after : list effect) :
  scrolled (before ++ appendChild n :: after) = true →
  ∃ rest, after = scrollToBottom_ :: rest.
Proof.
  induction before as [|d before IH]; intros Hl.
  - simpl in Hl. destruct after as [|[] rest]; try done. eauto.
  - apply IH. destruct d; try done.
    destruct before as [|[] before]; simpl in *; done.
Qed.

(** X9.  Whenever the script appends a node to the message list, a
    message or the typing indicator, the next thing it does is scroll the
    list to its bottom: this holds of the whole log of every run from the
    loaded page. *)
Theorem every_append_is_scrolled (GREETING : DOMString) (es : list event) (s' : page) :
  run es (loaded GREETING) = Some s' →
  scrolled (log s') = true ∧
  ∀ before n after,
    log s' = before ++ appendChild n :: after →
    ∃ rest, after = scrollToBottom_ :: rest.
Proof.
  intros Hrun.
  assert (Hs : scrolled (log s') = true).
  { apply (run_invariant (λ s, scrolled (log s) = true))
      with (es := es) (s := loaded GREETING); [|done|reflexivity].
    intros e s1 s2 Hstep Hinv.
    destruct (step_kinds e s1 s2 Hstep) as
      [(_ & ->)|[(_ & _ & ->)|(i & o & doc & text & id & before & _ & _ & -> & _ & _ & Hq)]];
      simpl.
    - done.
    - by apply scrolled_app.
    - apply scrolled_app; [done|].
      apply scrolled_app; [by apply scrolled_quiet|done]. }
  split; [done|]. intros before n after Hlog. rewrite Hlog in Hs.
  by apply (scrolled_at before n after).
Qed.

Lemma every_append_is_scrolled_witness :
  ∃ s', run [input (lit "Hi"); submit; settle 0 (json_resolved 200 odd_body)]
            (loaded (lit "Hallo")) = Some s' ∧
        scrolled (log s') = true.
Proof.
  eexists. split; [vm_compute; reflexivity|].
  refine (proj1 (every_append_is_scrolled (lit "Hallo")
                   [input (lit "Hi"); submit; settle 0 (json_resolved 200 odd_body)]
                   _ _)).
  vm_compute; reflexivity.
Defined.

(** ** The identifier that is sent *)

(** X10.  A request carries the identifier that is stored when the message
    is submitted, not the one its own or an earlier exchange will bring:
    through a run in which no exchange settles the stored identifier does
    not change, and every request sent in it, one for each exchange newly
    in flight, carries that identifier. *)
Theorem identifier_sent_is_the_stored_one (es : list event) (s s' : page) :
  Forall (λ e, is_settle e = false) es →
  run es s = Some s' →
  conversationId s' = conversationId s ∧
  ∃ texts,
    in_flight s' = in_flight s ++ texts ∧
    requests (log s') =
      requests (log s) ++ map (λ m, chat_request m (conversationId s)) texts.
Proof.
  intros Hes Hrun.
  apply (run_invariant_events (λ e, negb (is_settle e))
           (λ s1, conversationId s1 = conversationId s ∧
                  ∃ texts,
                    in_flight s1 = in_flight s ++ texts ∧
                    requests (log s1) =
                      requests (log s) ++
                      map (λ m, chat_request m (conversationId s)) texts))
    with (es := es) (s := s); [| |done|].
  - intros e s1 s2 He Hstep (Hid & texts & Hfl & Hreq).
    destruct (step_kinds e s1 s2 Hstep) as
      [(_ & ->)|[(_ & _ & ->)|(i & o & doc & text & id & before & -> & _)]];
      simpl.
    + eauto.
    + split; [done|]. exists (texts ++ [trim (input_value s1)]).
      rewrite Hfl, requests_app, Hreq, map_app, Hid, <- !app_assoc. done.
    + done.
  - eapply Forall_impl; [exact Hes|]. by intros e ->.
  - split; [done|]. exists []. by rewrite !app_nil_r.
Qed.

Lemma identifier_sent_is_the_stored_one_witness :
  Forall (λ e, is_settle e = false)
    [input (lit "Du"); click; input (lit "Und?"); keypress (lit "Enter") false] ∧
  ∃ s', run [input (lit "Du"); click; input (lit "Und?"); keypress (lit "Enter") false]
            asked = Some s' ∧
        conversationId s' = conversationId asked.
Proof.
  assert (Hes : Forall (λ e, is_settle e = false)
            [input (lit "Du"); click; input (lit "Und?"); keypress (lit "Enter") false])
    by (repeat constructor).
  split; [exact Hes|].
  eexists. split; [vm_compute; reflexivity|].
  refine (proj1 (identifier_sent_is_the_stored_one
                   [input (lit "Du"); click; input (lit "Und?");
                    keypress (lit "Enter") false] asked _ Hes _)).
  vm_compute; reflexivity.
Defined.

(** X11.  The stored identifier is decided by the order in which the
    responses arrive, not the order of the submissions: after any run it
    is the conversation_id of the success that settled last, and the one
    stored before the run when no success settled in it. *)
Theorem last_success_decides_identifier (es : list event) (s s' : page) :
  run es s = Some s' →
  conversationId s' = identifier_after es (conversationId s).
Proof.
  revert s. induction es as [|e es IH]; simpl; intros s Hrun.
  - by inversion Hrun.
  - destruct (step e s) as [s1|] eqn:Hstep; [|done].
    rewrite (IH s1 Hrun), (step_identifier e s s1 Hstep). done.
Qed.

Lemma last_success_decides_identifier_witness :
  ∃ s', run [input (lit "Du"); submit;
             settle 1 (json_resolved 200 success_body);
             settle 0 (json_resolved 200 null_id_body)] asked = Some s' ∧
        conversationId s' = Some JNull.
Proof.
  eexists. split; [vm_compute; reflexivity|].
  refine (last_success_decides_identifier
            [input (lit "Du"); submit;
             settle 1 (json_resolved 200 success_body);
             settle 0 (json_resolved 200 null_id_body)] asked _ _).
  vm_compute; reflexivity.
Defined.
